(** * Crypto-agent: the five tool functions of the blockchain assistant

    A shallow embedding of the tool functions that [src/app.py] and
    [src/blockchain_assistant/agent.py] register with the agent runtime and
    expose over HTTP:

      get_blockchain_info, validate_wallet_address, explain_gas_fees,
      get_smart_contract_template, convert_crypto_units.

    Python values are embedded as a small universe [pyval]; a [dict] is an
    association list in insertion order (so that [list(d.keys())] is the
    list of first components); a [str] is a [string] whose characters are
    read as the code points 0..255; a [float] is a binary64 number, one of
    the kernel's primitive floats. Operations that can raise in Python
    ([d[k]], [/], [re.compile]) return in the error monad [result].

    The file has the embedding first ([Py], [Re], [App], [Agent]), then the
    vocabulary of the specification ([Binary64], [Spec], [Compiled]), then
    the properties. *)

From Stdlib Require Import String Ascii List ZArith NArith Bool Lia Btauto.
From Stdlib Require Import Reals Lra.
From Stdlib Require Import Floats Uint63.
Import ListNotations.

#[local] Set Warnings "-inexact-float,-register-all".
#[local] Open Scope list_scope.
#[local] Open Scope string_scope.

(** ** Python strings *)

Module Py.

(** One-character strings for the characters a Rocq literal cannot hold. *)
Definition chr (n : nat) : string := String (ascii_of_nat n) EmptyString.
Definition dq : string := chr 34.
Definition nl : string := chr 10.

Definition ord (c : ascii) : N := N_of_ascii c.

(** [str.lower] on one code point below 256: the ASCII capitals and the
    Latin-1 capitals U+00C0..U+00DE (U+00D7, the multiplication sign, is
    not a letter) move up by 32; every other code point is unchanged. *)
Definition lower_char (c : ascii) : ascii :=
  let n := ord c in
  if ((65 <=? n) && (n <=? 90)
      || (192 <=? n) && (n <=? 222) && negb (n =? 215))%N
  then ascii_of_N (n + 32) else c.

Fixpoint lower (s : string) : string :=
  match s with
  | EmptyString => EmptyString
  | String c s' => String (lower_char c) (lower s')
  end.

(** [str.isspace] on one code point below 256: TAB, LF, VT, FF, CR, the
    separators U+001C..U+001F, SPACE, NEL (U+0085) and NBSP (U+00A0). *)
Definition isspace (c : ascii) : bool :=
  let n := ord c in
  ((9 <=? n) && (n <=? 13) || (28 <=? n) && (n <=? 32)
   || (n =? 133) || (n =? 160))%N.

Fixpoint lstrip (s : string) : string :=
  match s with
  | EmptyString => EmptyString
  | String c s' => if isspace c then lstrip s' else s
  end.

Fixpoint rstrip (s : string) : string :=
  match s with
  | EmptyString => EmptyString
  | String c s' =>
      match rstrip s' with
      | EmptyString => if isspace c then EmptyString else String c EmptyString
      | r => String c r
      end
  end.

(** [s.strip()] with no argument: whitespace removed at both ends. *)
Definition strip (s : string) : string := rstrip (lstrip s).

(** ** Python values, dicts and exceptions *)

Inductive pyval : Type :=
| PNone
| PBool (b : bool)
| PInt (z : Z)
| PFloat (f : float)
| PStr (s : string)
| PList (l : list pyval)
| PDict (d : list (string * pyval)).

Arguments PFloat f%_float.
Arguments PInt z%_Z.

Definition dict : Type := list (string * pyval).

Inductive exn : Type :=
| KeyError (k : string)
| TypeError
| OverflowError
| ZeroDivisionError
| ReError (pattern : string).

Definition result (A : Type) : Type := (exn + A)%type.

Definition ret {A : Type} (a : A) : result A := inr a.
Definition raise {A : Type} (e : exn) : result A := inl e.
Definition bind {A B : Type} (m : result A) (f : A -> result B) : result B :=
  match m with
  | inl e => inl e
  | inr a => f a
  end.

Notation "x <- m ;; k" := (bind m (fun x => k))
  (at level 61, m at next level, right associativity).

(** [k in d] *)
Fixpoint contains (d : dict) (k : string) : bool :=
  match d with
  | [] => false
  | (k', _) :: d' => if String.eqb k k' then true else contains d' k
  end.

(** [d[k]], raising [KeyError] when the key is absent. *)
Fixpoint getitem (d : dict) (k : string) : result pyval :=
  match d with
  | [] => raise (KeyError k)
  | (k', v) :: d' => if String.eqb k k' then ret v else getitem d' k
  end.

(** [v[k]] on a value: only a dict can be subscripted by a string. *)
Definition subscript (v : pyval) (k : string) : result pyval :=
  match v with
  | PDict d => getitem d k
  | _ => raise TypeError
  end.

(** [list(d.keys())] *)
Definition keys (d : dict) : pyval := PList (map (fun kv => PStr (fst kv)) d).

(** [v] where a [str] is required *)
Definition as_str (v : pyval) : result string :=
  match v with
  | PStr s => ret s
  | _ => raise TypeError
  end.

(** A [str] or [None] as a value *)
Definition of_opt_str (v : option string) : pyval :=
  match v with
  | Some s => PStr s
  | None => PNone
  end.

(** [a != b] on values that are a [str] or [None] *)
Definition opt_str_ne (a b : option string) : bool :=
  match a, b with
  | Some x, Some y => negb (String.eqb x y)
  | None, None => false
  | _, _ => true
  end.

(** The value of a parameter declared with a default. *)
Definition with_default (arg : option string) (d : string) : string :=
  match arg with
  | Some s => s
  | None => d
  end.

(** [x in l] for a list of strings *)
Definition str_in (x : string) (l : list string) : bool :=
  existsb (String.eqb x) l.

(** The text an f-string gives for [{v}] when [v] is a [str] or [None]. *)
Definition format (v : option string) : string :=
  match v with
  | Some s => s
  | None => "None"
  end.

(** A number as the float operand of [*] or [/]: an [int] is converted
    first. The conversion is exact up to 2^53, which covers the ints of the
    tables; this model gives no value to a larger one. *)
Definition to_float (v : pyval) : result float :=
  match v with
  | PFloat f => ret f
  | PInt z =>
      if (Z.abs z <=? 2 ^ 53)%Z then
        let m := PrimFloat.of_uint63 (Uint63.of_Z (Z.abs z)) in
        ret (if (z <? 0)%Z then PrimFloat.opp m else m)
      else raise OverflowError
  | _ => raise TypeError
  end.

(** [a * b] and [a / b] on floats; [/] raises on a zero divisor. *)
Definition fmul (a b : float) : float := PrimFloat.mul a b.
Definition fdiv (a b : float) : result float :=
  if PrimFloat.eqb b 0%float then raise ZeroDivisionError
  else ret (PrimFloat.div a b).

End Py.

(** ** Regular expressions: the fragment of [re] the validators use

    [re.match(pattern, s)] compiles the pattern text and looks for a match
    that starts at position 0. Without flags, [^] matches at position 0
    only, and [$] matches at the end of the string and also just before a
    newline that is the last character. *)

Module Re.
Import Py.

(** A character class is a list of inclusive code-point ranges. *)
Definition class : Type := list (N * N).

Definition class_mem (cls : class) (c : ascii) : bool :=
  existsb (fun r => (fst r <=? ord c) && (ord c <=? snd r))%N cls.

Inductive regex : Type :=
| Eps
| Chr (cls : class)
| Seq (r1 r2 : regex)
| Alt (r1 r2 : regex)
| Rep (r : regex) (lo hi : nat)
| Bol
| Eol.

(** *** Compiling a pattern *)

Definition special (c : ascii) : bool :=
  existsb (Ascii.eqb c)
    ["."; "^"; "$"; "*"; "+"; "?"; "{"; "}"; "["; "]"; "\"; "|"; "("; ")"]%char.

Definition is_digit (c : ascii) : bool := ((48 <=? ord c) && (ord c <=? 57))%N.

(** Decimal digits at the head of [s], read into [acc]. *)
Fixpoint parse_nat (acc : nat) (s : string) : nat * string :=
  match s with
  | String c s' =>
      if is_digit c then parse_nat (10 * acc + (N.to_nat (ord c) - 48)) s'
      else (acc, s)
  | EmptyString => (acc, s)
  end.

(** The inside of [[...]] up to the closing bracket: single characters
    and ranges [a-b]; no negation, no escapes. *)
Fixpoint parse_class (acc : class) (s : string) : option (class * string) :=
  match s with
  | EmptyString => None
  | String a s1 =>
      if Ascii.eqb a "]" then
        match acc with [] => None | _ => Some (rev acc, s1) end
      else
        match s1 with
        | String "-" (String b s2) =>
            if Ascii.eqb b "]" then parse_class ((ord a, ord a) :: acc) s1
            else if (ord a <=? ord b)%N then parse_class ((ord a, ord b) :: acc) s2
            else None
        | _ => parse_class ((ord a, ord a) :: acc) s1
        end
  end.

(** An optional [{m}] or [{m,n}] after an atom. *)
Definition parse_quant (r : regex) (s : string) : option (regex * string) :=
  match s with
  | String "{" s1 =>
      match s1 with
      | String c _ =>
          if is_digit c then
            let (lo, s2) := parse_nat 0 s1 in
            match s2 with
            | String "}" s3 => Some (Rep r lo lo, s3)
            | String "," (String d s3) =>
                if is_digit d then
                  let (hi, s4) := parse_nat 0 (String d s3) in
                  match s4 with
                  | String "}" s5 =>
                      if Nat.leb lo hi then Some (Rep r lo hi, s5) else None
                  | _ => None
                  end
                else None
            | _ => None
            end
          else None
      | EmptyString => None
      end
  | _ => Some (r, s)
  end.

(** Recursive descent, with fuel for the nesting of groups:
    alternatives of sequences of quantified atoms. *)
Fixpoint parse_alt (fuel : nat) (s : string) {struct fuel}
  : option (regex * string) :=
  match fuel with
  | O => None
  | S f =>
      match parse_seq f s with
      | Some (r1, String "|" s') =>
          match parse_alt f s' with
          | Some (r2, s'') => Some (Alt r1 r2, s'')
          | None => None
          end
      | other => other
      end
  end
with parse_seq (fuel : nat) (s : string) {struct fuel}
  : option (regex * string) :=
  match fuel with
  | O => None
  | S f =>
      match s with
      | EmptyString => Some (Eps, s)
      | String "|" _ => Some (Eps, s)
      | String ")" _ => Some (Eps, s)
      | _ =>
          match parse_atom f s with
          | Some (a, s1) =>
              match parse_quant a s1 with
              | Some (r1, s2) =>
                  match parse_seq f s2 with
                  | Some (Eps, s3) => Some (r1, s3)
                  | Some (r2, s3) => Some (Seq r1 r2, s3)
                  | None => None
                  end
              | None => None
              end
          | None => None
          end
      end
  end
with parse_atom (fuel : nat) (s : string) {struct fuel}
  : option (regex * string) :=
  match fuel with
  | O => None
  | S f =>
      match s with
      | EmptyString => None
      | String "^" s' => Some (Bol, s')
      | String "$" s' => Some (Eol, s')
      | String "(" s' =>
          match parse_alt f s' with
          | Some (r, String ")" s'') => Some (r, s'')
          | _ => None
          end
      | String "[" s' =>
          match parse_class [] s' with
          | Some (cls, s'') => Some (Chr cls, s'')
          | None => None
          end
      | String c s' =>
          if special c then None else Some (Chr [(ord c, ord c)], s')
      end
  end.

(** [re.compile]: [None] stands for a pattern outside the fragment. *)
Definition compile (pattern : string) : option regex :=
  match parse_alt (3 * String.length pattern + 3) pattern with
  | Some (r, EmptyString) => Some r
  | _ => None
  end.

(** *** Matching

    A backtracking matcher in continuation-passing style: [run r pos s k]
    tries [r] on the rest [s] of the subject, [pos] characters in, and
    hands every way of matching it to [k], first success wins. *)

Definition at_end (s : string) : bool :=
  match s with
  | EmptyString => true
  | String c EmptyString => Ascii.eqb c "010"%char
  | _ => false
  end.

Fixpoint run (r : regex) (pos : nat) (s : string)
    (k : nat -> string -> bool) {struct r} : bool :=
  match r with
  | Eps => k pos s
  | Chr cls =>
      match s with
      | String c s' => class_mem cls c && k (S pos) s'
      | EmptyString => false
      end
  | Seq r1 r2 => run r1 pos s (fun pos' s' => run r2 pos' s' k)
  | Alt r1 r2 => run r1 pos s k || run r2 pos s k
  | Rep r1 lo hi =>
      (fix rep (lo hi pos : nat) (s : string) {struct hi} : bool :=
         match hi with
         | O => match lo with O => k pos s | S _ => false end
         | S hi' =>
             run r1 pos s (fun pos' s' => rep (Nat.pred lo) hi' pos' s')
             || match lo with O => k pos s | S _ => false end
         end) lo hi pos s
  | Bol => Nat.eqb pos 0 && k pos s
  | Eol => at_end s && k pos s
  end.

(** [bool(re.match(pattern, s))] *)
Definition match_ (pattern s : string) : result bool :=
  match compile pattern with
  | Some r => ret (run r 0 s (fun _ _ => true))
  | None => raise (ReError pattern)
  end.

End Re.

(** ** The tool functions of [src/app.py] *)

Module App.
Import Py.

(** [blockchain_data] of [get_blockchain_info], lines 23-90. *)
Definition blockchain_data : dict :=
  [ ("ethereum", PDict
    [ ("name", PStr "Ethereum");
      ("symbol", PStr "ETH");
      ("consensus", PStr "Proof of Stake (PoS)");
      ("avg_block_time", PStr "~12 seconds");
      ("smart_contracts", PBool true);
      ("launched", PStr "2015");
      ("founder", PStr "Vitalik Buterin");
      ("website", PStr "https://ethereum.org");
      ("description", PStr "A decentralized platform for building dApps and smart contracts.") ]);
    ("bitcoin", PDict
    [ ("name", PStr "Bitcoin");
      ("symbol", PStr "BTC");
      ("consensus", PStr "Proof of Work (PoW)");
      ("avg_block_time", PStr "~10 minutes");
      ("smart_contracts", PBool false);
      ("launched", PStr "2009");
      ("founder", PStr "Satoshi Nakamoto");
      ("website", PStr "https://bitcoin.org");
      ("description", PStr "The first and most well-known cryptocurrency.") ]);
    ("solana", PDict
    [ ("name", PStr "Solana");
      ("symbol", PStr "SOL");
      ("consensus", PStr "Proof of History (PoH) + Proof of Stake");
      ("avg_block_time", PStr "~400 milliseconds");
      ("smart_contracts", PBool true);
      ("launched", PStr "2020");
      ("founder", PStr "Anatoly Yakovenko");
      ("website", PStr "https://solana.com");
      ("description", PStr "A high-performance blockchain with fast transactions and low fees.") ]);
    ("polygon", PDict
    [ ("name", PStr "Polygon");
      ("symbol", PStr "MATIC");
      ("consensus", PStr "Proof of Stake (PoS)");
      ("avg_block_time", PStr "~2 seconds");
      ("smart_contracts", PBool true);
      ("launched", PStr "2017");
      ("founder", PStr "Jaynti Kanani, Sandeep Nailwal, Anurag Arjun");
      ("website", PStr "https://polygon.technology");
      ("description", PStr "An Ethereum Layer 2 scaling solution.") ]);
    ("avalanche", PDict
    [ ("name", PStr "Avalanche");
      ("symbol", PStr "AVAX");
      ("consensus", PStr "Avalanche Consensus (PoS variant)");
      ("avg_block_time", PStr "~2 seconds");
      ("smart_contracts", PBool true);
      ("launched", PStr "2020");
      ("founder", PStr ("Emin G" ++ chr 195 ++ chr 188 ++ "n Sirer"));
      ("website", PStr "https://www.avax.network");
      ("description", PStr "A highly scalable blockchain platform for dApps.") ]);
    ("cardano", PDict
    [ ("name", PStr "Cardano");
      ("symbol", PStr "ADA");
      ("consensus", PStr "Ouroboros Proof of Stake");
      ("avg_block_time", PStr "~20 seconds");
      ("smart_contracts", PBool true);
      ("launched", PStr "2017");
      ("founder", PStr "Charles Hoskinson");
      ("website", PStr "https://cardano.org");
      ("description", PStr "A research-driven blockchain focused on security.") ]) ].

Definition get_blockchain_info (chain_name : string) : result pyval :=
  let chain_key := strip (lower chain_name) in
  if contains blockchain_data chain_key then
    data <- getitem blockchain_data chain_key ;;
    ret (PDict [ ("status", PStr "success"); ("data", data) ])
  else
    ret (PDict
      [ ("status", PStr "not_found");
        ("message", PStr ("Blockchain '" ++ chain_name ++ "' not found."));
        ("available_chains", keys blockchain_data) ]).

(** [validations] of [validate_wallet_address], lines 106-119. *)
Definition validations : dict :=
  [ ("ethereum", PDict
    [ ("pattern", PStr "^0x[a-fA-F0-9]{40}$");
      ("description", PStr "Ethereum addresses start with '0x' followed by 40 hex characters") ]);
    ("bitcoin", PDict
    [ ("pattern", PStr "^(1|3|bc1)[a-zA-HJ-NP-Z0-9]{25,62}$");
      ("description", PStr "Bitcoin addresses start with '1', '3', or 'bc1'") ]);
    ("solana", PDict
    [ ("pattern", PStr "^[1-9A-HJ-NP-Za-km-z]{32,44}$");
      ("description", PStr "Solana addresses are base58 encoded, 32-44 characters") ]) ].

Definition validate_wallet_address (address : string) (chain_arg : option string)
  : result pyval :=
  let chain := with_default chain_arg "ethereum" in
  let chain_lower := lower chain in
  if negb (contains validations chain_lower) then
    ret (PDict
      [ ("status", PStr "error");
        ("message", PStr ("Validation not supported for chain: " ++ chain));
        ("supported_chains", keys validations) ])
  else
    entry <- getitem validations chain_lower ;;
    pattern <- subscript entry "pattern" ;;
    pattern <- as_str pattern ;;
    is_valid <- Re.match_ pattern address ;;
    entry' <- getitem validations chain_lower ;;
    description <- subscript entry' "description" ;;
    ret (PDict
      [ ("status", PStr "success");
        ("address", PStr address);
        ("chain", PStr chain);
        ("is_valid", PBool is_valid);
        ("format_description", description);
        ("message", PStr (if is_valid then "Address format is valid!"
                          else "Invalid address format.")) ]).

(** [gas_info] of [explain_gas_fees], lines 142-174. *)
Definition gas_info : dict :=
  [ ("ethereum", PDict
    [ ("fee_name", PStr "Gas");
      ("unit", PStr "Gwei (1 Gwei = 0.000000001 ETH)");
      ("components", PList [PStr "Base Fee"; PStr "Priority Fee (Tip)"]);
      ("explanation", PStr "Ethereum gas fees consist of Base Fee (burned) and Priority Fee (tip to validators).");
      ("typical_costs", PDict
      [ ("simple_transfer", PStr "21,000 gas units");
        ("token_transfer", PStr "~65,000 gas units");
        ("swap", PStr "~150,000 gas units") ]) ]);
    ("solana", PDict
    [ ("fee_name", PStr "Transaction Fee");
      ("unit", PStr "Lamports (1 SOL = 1B Lamports)");
      ("components", PList [PStr "Base Fee"; PStr "Priority Fee"]);
      ("explanation", PStr "Solana has extremely low fees, typically a fraction of a cent.");
      ("typical_costs", PDict
      [ ("simple_transfer", PStr "~0.000005 SOL");
        ("token_transfer", PStr "~0.00001 SOL") ]) ]);
    ("polygon", PDict
    [ ("fee_name", PStr "Gas (MATIC)");
      ("unit", PStr "Gwei (paid in MATIC)");
      ("components", PList [PStr "Base Fee"; PStr "Priority Fee"]);
      ("explanation", PStr "Polygon uses a similar gas model to Ethereum but much cheaper.");
      ("typical_costs", PDict
      [ ("simple_transfer", PStr "~$0.001-0.01");
        ("swap", PStr "~$0.05-0.20") ]) ]) ].

Definition explain_gas_fees (chain_arg : option string) : result pyval :=
  let chain := with_default chain_arg "ethereum" in
  let chain_lower := lower chain in
  if contains gas_info chain_lower then
    info <- getitem gas_info chain_lower ;;
    ret (PDict
      [ ("status", PStr "success"); ("chain", PStr chain); ("gas_info", info) ])
  else
    ret (PDict
      [ ("status", PStr "not_found");
        ("message", PStr ("Gas info not available for " ++ chain));
        ("available_chains", keys gas_info) ]).

(** [templates] of [get_smart_contract_template], lines 188-255. *)
Definition templates : dict :=
  [ ("erc20", PDict
    [ ("name", PStr "ERC-20 Token");
      ("description", PStr "Standard fungible token contract");
      ("code", PStr ("// SPDX-License-Identifier: MIT" ++ nl ++
          "pragma solidity ^0.8.19;" ++ nl ++
          nl ++ "import " ++ dq ++ "@openzeppelin/contracts/token/ERC20/ERC20.sol" ++ dq ++ ";" ++ nl ++
          "import " ++ dq ++ "@openzeppelin/contracts/access/Ownable.sol" ++ dq ++ ";" ++ nl ++
          nl ++ "contract MyToken is ERC20, Ownable {" ++ nl ++
          "    constructor(string memory name, string memory symbol, uint256 initialSupply)" ++ nl ++
          "        ERC20(name, symbol) Ownable(msg.sender) {" ++ nl ++
          "        _mint(msg.sender, initialSupply * 10 ** decimals());" ++ nl ++
          "    }" ++ nl ++
          nl ++ "    function mint(address to, uint256 amount) public onlyOwner {" ++ nl ++
          "        _mint(to, amount);" ++ nl ++
          "    }" ++ nl ++
          "}")) ]);
    ("erc721", PDict
    [ ("name", PStr "ERC-721 NFT");
      ("description", PStr "Standard NFT contract");
      ("code", PStr ("// SPDX-License-Identifier: MIT" ++ nl ++
          "pragma solidity ^0.8.19;" ++ nl ++
          nl ++ "import " ++ dq ++ "@openzeppelin/contracts/token/ERC721/ERC721.sol" ++ dq ++ ";" ++ nl ++
          "import " ++ dq ++ "@openzeppelin/contracts/token/ERC721/extensions/ERC721URIStorage.sol" ++ dq ++ ";" ++ nl ++
          "import " ++ dq ++ "@openzeppelin/contracts/access/Ownable.sol" ++ dq ++ ";" ++ nl ++
          nl ++ "contract MyNFT is ERC721, ERC721URIStorage, Ownable {" ++ nl ++
          "    uint256 private _tokenIdCounter;" ++ nl ++
          nl ++ "    constructor() ERC721(" ++ dq ++ "MyNFT" ++ dq ++ ", " ++ dq ++ "MNFT" ++ dq ++ ") Ownable(msg.sender) {}" ++ nl ++
          nl ++ "    function safeMint(address to, string memory uri) public onlyOwner {" ++ nl ++
          "        uint256 tokenId = _tokenIdCounter++;" ++ nl ++
          "        _safeMint(to, tokenId);" ++ nl ++
          "        _setTokenURI(tokenId, uri);" ++ nl ++
          "    }" ++ nl ++
          nl ++ "    function tokenURI(uint256 tokenId) public view override(ERC721, ERC721URIStorage)" ++ nl ++
          "        returns (string memory) { return super.tokenURI(tokenId); }" ++ nl ++
          nl ++ "    function supportsInterface(bytes4 interfaceId) public view override(ERC721, ERC721URIStorage)" ++ nl ++
          "        returns (bool) { return super.supportsInterface(interfaceId); }" ++ nl ++
          "}")) ]);
    ("simple_storage", PDict
    [ ("name", PStr "Simple Storage");
      ("description", PStr "Basic learning contract");
      ("code", PStr ("// SPDX-License-Identifier: MIT" ++ nl ++
          "pragma solidity ^0.8.19;" ++ nl ++
          nl ++ "contract SimpleStorage {" ++ nl ++
          "    uint256 private storedValue;" ++ nl ++
          "    event ValueChanged(uint256 newValue, address changedBy);" ++ nl ++
          nl ++ "    function set(uint256 value) public {" ++ nl ++
          "        storedValue = value;" ++ nl ++
          "        emit ValueChanged(value, msg.sender);" ++ nl ++
          "    }" ++ nl ++
          nl ++ "    function get() public view returns (uint256) { return storedValue; }" ++ nl ++
          "}")) ]) ].

Definition get_smart_contract_template (contract_type : string) : result pyval :=
  let contract_key := strip (lower contract_type) in
  if contains templates contract_key then
    template <- getitem templates contract_key ;;
    ret (PDict [ ("status", PStr "success"); ("template", template) ])
  else
    ret (PDict
      [ ("status", PStr "not_found");
        ("message", PStr ("Template '" ++ contract_type ++ "' not found."));
        ("available_templates", keys templates) ]).

(** [conversions] of [convert_crypto_units], lines 269-273. *)
Definition conversions : dict :=
  [ ("wei", PInt 1);
    ("gwei", PFloat 1e9);
    ("eth", PFloat 1e18);
    ("ether", PFloat 1e18);
    ("satoshi", PInt 1);
    ("sat", PInt 1);
    ("btc", PFloat 1e8);
    ("bitcoin", PFloat 1e8);
    ("lamport", PInt 1);
    ("lamports", PInt 1);
    ("sol", PFloat 1e9);
    ("solana", PFloat 1e9) ].

Definition eth_units : list string := ["wei"; "gwei"; "eth"; "ether"].
Definition btc_units : list string := ["satoshi"; "sat"; "btc"; "bitcoin"].
Definition sol_units : list string := ["lamport"; "lamports"; "sol"; "solana"].

Definition get_chain (unit : string) : option string :=
  if str_in unit eth_units then Some "ethereum"
  else if str_in unit btc_units then Some "bitcoin"
  else if str_in unit sol_units then Some "solana"
  else None.

Definition convert_crypto_units (amount : float) (from_unit to_unit : string)
  : result pyval :=
  let from_lower := lower from_unit in
  let to_lower := lower to_unit in
  if negb (contains conversions from_lower) || negb (contains conversions to_lower)
  then
    ret (PDict
      [ ("status", PStr "error");
        ("message", PStr "Invalid unit");
        ("available_units", keys conversions) ])
  else
    let from_chain := get_chain from_lower in
    let to_chain := get_chain to_lower in
    if opt_str_ne from_chain to_chain then
      ret (PDict
        [ ("status", PStr "error");
          ("message", PStr ("Cannot convert between " ++ format from_chain ++ " and " ++ format to_chain)) ])
    else
      cf <- getitem conversions from_lower ;;
      cf <- to_float cf ;;
      ct <- getitem conversions to_lower ;;
      ct <- to_float ct ;;
      result <- fdiv (fmul amount cf) ct ;;
      ret (PDict
        [ ("status", PStr "success");
          ("input", PDict [ ("amount", PFloat amount); ("unit", PStr from_unit) ]);
          ("output", PDict [ ("amount", PFloat result); ("unit", PStr to_unit) ]);
          ("blockchain", of_opt_str from_chain) ]).

End App.

(** ** The tool functions of [src/blockchain_assistant/agent.py] *)

Module Agent.
Import Py.

(** [blockchain_data] of [get_blockchain_info], lines 23-101. *)
Definition blockchain_data : dict :=
  [ ("ethereum", PDict
    [ ("name", PStr "Ethereum");
      ("symbol", PStr "ETH");
      ("consensus", PStr "Proof of Stake (PoS)");
      ("avg_block_time", PStr "~12 seconds");
      ("smart_contracts", PBool true);
      ("launched", PStr "2015");
      ("founder", PStr "Vitalik Buterin");
      ("website", PStr "https://ethereum.org");
      ("description", PStr "A decentralized platform for building dApps and smart contracts.") ]);
    ("bitcoin", PDict
    [ ("name", PStr "Bitcoin");
      ("symbol", PStr "BTC");
      ("consensus", PStr "Proof of Work (PoW)");
      ("avg_block_time", PStr "~10 minutes");
      ("smart_contracts", PBool false);
      ("launched", PStr "2009");
      ("founder", PStr "Satoshi Nakamoto");
      ("website", PStr "https://bitcoin.org");
      ("description", PStr "The first and most well-known cryptocurrency, designed as a peer-to-peer electronic cash system.") ]);
    ("solana", PDict
    [ ("name", PStr "Solana");
      ("symbol", PStr "SOL");
      ("consensus", PStr "Proof of History (PoH) + Proof of Stake");
      ("avg_block_time", PStr "~400 milliseconds");
      ("smart_contracts", PBool true);
      ("launched", PStr "2020");
      ("founder", PStr "Anatoly Yakovenko");
      ("website", PStr "https://solana.com");
      ("description", PStr "A high-performance blockchain supporting fast transactions and low fees.") ]);
    ("polygon", PDict
    [ ("name", PStr "Polygon");
      ("symbol", PStr "MATIC");
      ("consensus", PStr "Proof of Stake (PoS)");
      ("avg_block_time", PStr "~2 seconds");
      ("smart_contracts", PBool true);
      ("launched", PStr "2017");
      ("founder", PStr "Jaynti Kanani, Sandeep Nailwal, Anurag Arjun");
      ("website", PStr "https://polygon.technology");
      ("description", PStr "An Ethereum Layer 2 scaling solution for faster and cheaper transactions.") ]);
    ("binance", PDict
    [ ("name", PStr "BNB Chain (Binance Smart Chain)");
      ("symbol", PStr "BNB");
      ("consensus", PStr "Proof of Staked Authority (PoSA)");
      ("avg_block_time", PStr "~3 seconds");
      ("smart_contracts", PBool true);
      ("launched", PStr "2020");
      ("founder", PStr "Changpeng Zhao (CZ)");
      ("website", PStr "https://www.bnbchain.org");
      ("description", PStr "A blockchain focusing on fast and low-cost transactions, EVM compatible.") ]);
    ("avalanche", PDict
    [ ("name", PStr "Avalanche");
      ("symbol", PStr "AVAX");
      ("consensus", PStr "Avalanche Consensus (PoS variant)");
      ("avg_block_time", PStr "~2 seconds");
      ("smart_contracts", PBool true);
      ("launched", PStr "2020");
      ("founder", PStr ("Emin G" ++ chr 252 ++ "n Sirer"));
      ("website", PStr "https://www.avax.network");
      ("description", PStr "A highly scalable blockchain platform for decentralized applications.") ]);
    ("cardano", PDict
    [ ("name", PStr "Cardano");
      ("symbol", PStr "ADA");
      ("consensus", PStr "Ouroboros Proof of Stake");
      ("avg_block_time", PStr "~20 seconds");
      ("smart_contracts", PBool true);
      ("launched", PStr "2017");
      ("founder", PStr "Charles Hoskinson");
      ("website", PStr "https://cardano.org");
      ("description", PStr "A research-driven blockchain platform focused on security and sustainability.") ]) ].

Definition get_blockchain_info (chain_name : string) : result pyval :=
  let chain_key := strip (lower chain_name) in
  if contains blockchain_data chain_key then
    data <- getitem blockchain_data chain_key ;;
    ret (PDict [ ("status", PStr "success"); ("data", data) ])
  else
    ret (PDict
      [ ("status", PStr "not_found");
        ("message", PStr ("Blockchain '" ++ chain_name ++ "' not found in database."));
        ("available_chains", keys blockchain_data) ]).

(** [validations] of [validate_wallet_address], lines 127-140. *)
Definition validations : dict :=
  [ ("ethereum", PDict
    [ ("pattern", PStr "^0x[a-fA-F0-9]{40}$");
      ("description", PStr "Ethereum addresses start with '0x' followed by 40 hexadecimal characters") ]);
    ("bitcoin", PDict
    [ ("pattern", PStr "^(1|3|bc1)[a-zA-HJ-NP-Z0-9]{25,62}$");
      ("description", PStr "Bitcoin addresses start with '1', '3', or 'bc1'") ]);
    ("solana", PDict
    [ ("pattern", PStr "^[1-9A-HJ-NP-Za-km-z]{32,44}$");
      ("description", PStr "Solana addresses are base58 encoded, typically 32-44 characters") ]) ].

Definition validate_wallet_address (address : string) (chain_arg : option string)
  : result pyval :=
  let chain := with_default chain_arg "ethereum" in
  let chain_lower := lower chain in
  if negb (contains validations chain_lower) then
    ret (PDict
      [ ("status", PStr "error");
        ("message", PStr ("Validation not supported for chain: " ++ chain));
        ("supported_chains", keys validations) ])
  else
    entry <- getitem validations chain_lower ;;
    pattern <- subscript entry "pattern" ;;
    pattern <- as_str pattern ;;
    is_valid <- Re.match_ pattern address ;;
    entry' <- getitem validations chain_lower ;;
    description <- subscript entry' "description" ;;
    ret (PDict
      [ ("status", PStr "success");
        ("address", PStr address);
        ("chain", PStr chain);
        ("is_valid", PBool is_valid);
        ("format_description", description);
        ("message", PStr (if is_valid then "Address format is valid!"
                          else "Invalid address format.")) ]).

(** [gas_info] of [explain_gas_fees], lines 174-233. *)
Definition gas_info : dict :=
  [ ("ethereum", PDict
    [ ("fee_name", PStr "Gas");
      ("unit", PStr "Gwei (1 Gwei = 0.000000001 ETH)");
      ("components", PList [PStr "Base Fee"; PStr "Priority Fee (Tip)"]);
      ("explanation", PStr (nl ++ "Ethereum gas fees consist of:" ++ nl ++
          "1. **Base Fee**: Automatically determined by network demand. This is burned (destroyed)." ++ nl ++
          "2. **Priority Fee (Tip)**: Optional fee to incentivize validators to include your transaction faster." ++ nl ++
          nl ++ "**Formula**: Total Fee = Gas Units " ++ chr 215 ++ " (Base Fee + Priority Fee)" ++ nl ++
          nl ++ "**Tips to save on gas**:" ++ nl ++
          "- Transact during low-activity periods (weekends, late nights)" ++ nl ++
          "- Use Layer 2 solutions like Polygon, Arbitrum, or Optimism" ++ nl ++
          "- Set a max fee limit to avoid overpaying" ++ nl ++
          "            "));
      ("typical_costs", PDict
      [ ("simple_transfer", PStr "21,000 gas units");
        ("token_transfer", PStr "~65,000 gas units");
        ("uniswap_swap", PStr "~150,000 gas units");
        ("nft_mint", PStr "~100,000-200,000 gas units") ]) ]);
    ("solana", PDict
    [ ("fee_name", PStr "Transaction Fee");
      ("unit", PStr "Lamports (1 SOL = 1,000,000,000 Lamports)");
      ("components", PList [PStr "Base Fee"; PStr "Priority Fee"]);
      ("explanation", PStr (nl ++ "Solana has extremely low transaction fees:" ++ nl ++
          "1. **Base Fee**: Fixed at 5,000 lamports (0.000005 SOL) per signature" ++ nl ++
          "2. **Priority Fee**: Optional additional fee for faster processing" ++ nl ++
          nl ++ "Solana's fees are among the lowest in the industry, typically costing a fraction of a cent." ++ nl ++
          "            "));
      ("typical_costs", PDict
      [ ("simple_transfer", PStr "~0.000005 SOL");
        ("token_transfer", PStr "~0.00001 SOL");
        ("nft_mint", PStr "~0.01-0.02 SOL") ]) ]);
    ("polygon", PDict
    [ ("fee_name", PStr "Gas (MATIC)");
      ("unit", PStr "Gwei (paid in MATIC)");
      ("components", PList [PStr "Base Fee"; PStr "Priority Fee"]);
      ("explanation", PStr (nl ++ "Polygon uses a similar gas model to Ethereum but with much lower costs:" ++ nl ++
          "- Uses MATIC token for gas payments" ++ nl ++
          "- Significantly cheaper than Ethereum mainnet" ++ nl ++
          "- Fast transaction finality (~2 seconds)" ++ nl ++
          nl ++ "Typical transaction costs are pennies compared to Ethereum's dollars." ++ nl ++
          "            "));
      ("typical_costs", PDict
      [ ("simple_transfer", PStr "~$0.001-0.01");
        ("token_transfer", PStr "~$0.01-0.05");
        ("swap", PStr "~$0.05-0.20") ]) ]) ].

Definition explain_gas_fees (chain_arg : option string) : result pyval :=
  let chain := with_default chain_arg "ethereum" in
  let chain_lower := lower chain in
  if contains gas_info chain_lower then
    info <- getitem gas_info chain_lower ;;
    ret (PDict
      [ ("status", PStr "success"); ("chain", PStr chain); ("gas_info", info) ])
  else
    ret (PDict
      [ ("status", PStr "not_found");
        ("message", PStr ("Gas fee information not available for " ++ chain));
        ("available_chains", keys gas_info) ]).

(** [templates] of [get_smart_contract_template], lines 257-346. *)
Definition templates : dict :=
  [ ("erc20", PDict
    [ ("name", PStr "ERC-20 Token");
      ("description", PStr "Standard fungible token contract");
      ("code", PStr ("// SPDX-License-Identifier: MIT" ++ nl ++
          "pragma solidity ^0.8.19;" ++ nl ++
          nl ++ "import " ++ dq ++ "@openzeppelin/contracts/token/ERC20/ERC20.sol" ++ dq ++ ";" ++ nl ++
          "import " ++ dq ++ "@openzeppelin/contracts/access/Ownable.sol" ++ dq ++ ";" ++ nl ++
          nl ++ "contract MyToken is ERC20, Ownable {" ++ nl ++
          "    constructor(" ++ nl ++
          "        string memory name," ++ nl ++
          "        string memory symbol," ++ nl ++
          "        uint256 initialSupply" ++ nl ++
          "    ) ERC20(name, symbol) Ownable(msg.sender) {" ++ nl ++
          "        _mint(msg.sender, initialSupply * 10 ** decimals());" ++ nl ++
          "    }" ++ nl ++
          nl ++ "    function mint(address to, uint256 amount) public onlyOwner {" ++ nl ++
          "        _mint(to, amount);" ++ nl ++
          "    }" ++ nl ++
          "}"));
      ("explanation", PStr "This creates a basic ERC-20 token with minting capability. Uses OpenZeppelin for security.") ]);
    ("erc721", PDict
    [ ("name", PStr "ERC-721 NFT");
      ("description", PStr "Standard non-fungible token (NFT) contract");
      ("code", PStr ("// SPDX-License-Identifier: MIT" ++ nl ++
          "pragma solidity ^0.8.19;" ++ nl ++
          nl ++ "import " ++ dq ++ "@openzeppelin/contracts/token/ERC721/ERC721.sol" ++ dq ++ ";" ++ nl ++
          "import " ++ dq ++ "@openzeppelin/contracts/token/ERC721/extensions/ERC721URIStorage.sol" ++ dq ++ ";" ++ nl ++
          "import " ++ dq ++ "@openzeppelin/contracts/access/Ownable.sol" ++ dq ++ ";" ++ nl ++
          nl ++ "contract MyNFT is ERC721, ERC721URIStorage, Ownable {" ++ nl ++
          "    uint256 private _tokenIdCounter;" ++ nl ++
          nl ++ "    constructor() ERC721(" ++ dq ++ "MyNFT" ++ dq ++ ", " ++ dq ++ "MNFT" ++ dq ++ ") Ownable(msg.sender) {}" ++ nl ++
          nl ++ "    function safeMint(address to, string memory uri) public onlyOwner {" ++ nl ++
          "        uint256 tokenId = _tokenIdCounter;" ++ nl ++
          "        _tokenIdCounter++;" ++ nl ++
          "        _safeMint(to, tokenId);" ++ nl ++
          "        _setTokenURI(tokenId, uri);" ++ nl ++
          "    }" ++ nl ++
          nl ++ "    function tokenURI(uint256 tokenId)" ++ nl ++
          "        public" ++ nl ++
          "        view" ++ nl ++
          "        override(ERC721, ERC721URIStorage)" ++ nl ++
          "        returns (string memory)" ++ nl ++
          "    {" ++ nl ++
          "        return super.tokenURI(tokenId);" ++ nl ++
          "    }" ++ nl ++
          nl ++ "    function supportsInterface(bytes4 interfaceId)" ++ nl ++
          "        public" ++ nl ++
          "        view" ++ nl ++
          "        override(ERC721, ERC721URIStorage)" ++ nl ++
          "        returns (bool)" ++ nl ++
          "    {" ++ nl ++
          "        return super.supportsInterface(interfaceId);" ++ nl ++
          "    }" ++ nl ++
          "}"));
      ("explanation", PStr "A basic NFT contract with metadata URI storage. Each token is unique and can have its own metadata.") ]);
    ("simple_storage", PDict
    [ ("name", PStr "Simple Storage");
      ("description", PStr "A basic contract for learning Solidity");
      ("code", PStr ("// SPDX-License-Identifier: MIT" ++ nl ++
          "pragma solidity ^0.8.19;" ++ nl ++
          nl ++ "contract SimpleStorage {" ++ nl ++
          "    uint256 private storedValue;" ++ nl ++
          "    " ++ nl ++
          "    event ValueChanged(uint256 newValue, address changedBy);" ++ nl ++
          nl ++ "    function set(uint256 value) public {" ++ nl ++
          "        storedValue = value;" ++ nl ++
          "        emit ValueChanged(value, msg.sender);" ++ nl ++
          "    }" ++ nl ++
          nl ++ "    function get() public view returns (uint256) {" ++ nl ++
          "        return storedValue;" ++ nl ++
          "    }" ++ nl ++
          "}"));
      ("explanation", PStr "A beginner-friendly contract that stores a single number. Great for learning Solidity basics.") ]) ].

Definition get_smart_contract_template (contract_type : string) : result pyval :=
  let contract_key := strip (lower contract_type) in
  if contains templates contract_key then
    template <- getitem templates contract_key ;;
    ret (PDict [ ("status", PStr "success"); ("template", template) ])
  else
    ret (PDict
      [ ("status", PStr "not_found");
        ("message", PStr ("Template '" ++ contract_type ++ "' not found."));
        ("available_templates", keys templates) ]).

(** [conversions] of [convert_crypto_units], lines 373-389. *)
Definition conversions : dict :=
  [ ("wei", PInt 1);
    ("gwei", PFloat 1e9);
    ("eth", PFloat 1e18);
    ("ether", PFloat 1e18);
    ("satoshi", PInt 1);
    ("sat", PInt 1);
    ("btc", PFloat 1e8);
    ("bitcoin", PFloat 1e8);
    ("lamport", PInt 1);
    ("lamports", PInt 1);
    ("sol", PFloat 1e9);
    ("solana", PFloat 1e9) ].

Definition eth_units : list string := ["wei"; "gwei"; "eth"; "ether"].
Definition btc_units : list string := ["satoshi"; "sat"; "btc"; "bitcoin"].
Definition sol_units : list string := ["lamport"; "lamports"; "sol"; "solana"].

Definition get_chain (unit : string) : option string :=
  if str_in unit eth_units then Some "ethereum"
  else if str_in unit btc_units then Some "bitcoin"
  else if str_in unit sol_units then Some "solana"
  else None.

Definition convert_crypto_units (amount : float) (from_unit to_unit : string)
  : result pyval :=
  let from_lower := lower from_unit in
  let to_lower := lower to_unit in
  if negb (contains conversions from_lower) || negb (contains conversions to_lower)
  then
    ret (PDict
      [ ("status", PStr "error");
        ("message", PStr "Invalid unit specified");
        ("available_units", keys conversions) ])
  else
    let from_chain := get_chain from_lower in
    let to_chain := get_chain to_lower in
    if opt_str_ne from_chain to_chain then
      ret (PDict
        [ ("status", PStr "error");
          ("message", PStr ("Cannot convert between different blockchains (" ++ format from_chain ++ " to " ++ format to_chain ++ ")")) ])
    else
      cf <- getitem conversions from_lower ;;
      cf <- to_float cf ;;
      ct <- getitem conversions to_lower ;;
      ct <- to_float ct ;;
      result <- fdiv (fmul amount cf) ct ;;
      ret (PDict
        [ ("status", PStr "success");
          ("input", PDict [ ("amount", PFloat amount); ("unit", PStr from_unit) ]);
          ("output", PDict [ ("amount", PFloat result); ("unit", PStr to_unit) ]);
          ("blockchain", of_opt_str from_chain) ]).

End Agent.

(** ** Binary64 numbers as real numbers

    A Python [float] is a binary64 number. [Prim2SF] reads a kernel float
    as sign, mantissa and exponent, and the operations on kernel floats are
    specified on that reading ([mul_spec], [div_spec]): shifts of the exact
    result with a record of the bits shifted out, and rounding to nearest,
    ties to even. The definitions below give such a number its value in the
    reals and say where a real number lies with respect to a truncated
    mantissa. *)

Module Binary64.
Import SpecFloat.

#[local] Open Scope R_scope.

(** Two to the power [e], for any integer [e]. *)
Definition bpow (e : Z) : R := powerRZ 2 e.

Definition sign (s : bool) : R := if s then -1 else 1.

(** The value of a finite number; zero for the zeros, and by convention
    for the infinities and NaN. *)
Definition SF2R (x : spec_float) : R :=
  match x with
  | S754_finite s m e => sign s * IZR (Zpos m) * bpow e
  | _ => 0
  end.

Definition F2R (x : float) : R := SF2R (Prim2SF x).

(** Neither an infinity nor NaN. *)
Definition finite (x : float) : bool :=
  match Prim2SF x with
  | S754_finite _ _ _ | S754_zero _ => true
  | _ => false
  end.

(** A finite number with a full 53-bit mantissa and exponent [e]. *)
Definition normal (x : spec_float) (e : Z) : Prop :=
  exists s m, x = S754_finite s m e /\ (2 ^ 52 <= Zpos m < 2 ^ 53)%Z.

(** [x] lies in [[m, m+1)] at the place the location says: on [m], below,
    at or above the middle. *)
Definition locates (x : R) (m : Z) (l : location) : Prop :=
  match l with
  | loc_Exact => x = IZR m
  | loc_Inexact Lt => IZR m < x < IZR m + / 2
  | loc_Inexact Eq => x = IZR m + / 2
  | loc_Inexact Gt => IZR m + / 2 < x < IZR m + 1
  end.

(** The unit roundoff of binary64. *)
Definition u53 : R := bpow (-53).

End Binary64.

(** ** The result envelope and the specification's tables

    The definitions of this module follow the words of the specification,
    not the code: they are what the code is compared with. *)

Module Spec.
Import Py Binary64.

(** The three variants of the result envelope, told apart by the
    ["status"] entry of the returned dict. *)
Inductive variant : Type := Success | NotFound | Error.

Definition field (v : pyval) (k : string) : option pyval :=
  match subscript v k with
  | inr x => Some x
  | inl _ => None
  end.

Definition variant_of (v : pyval) : option variant :=
  match field v "status" with
  | Some (PStr s) =>
      if String.eqb s "success" then Some Success
      else if String.eqb s "not_found" then Some NotFound
      else if String.eqb s "error" then Some Error
      else None
  | _ => None
  end.

(** The [is_valid] flag of the envelope a call returns. *)
Definition valid_flag (r : result pyval) : option bool :=
  match r with
  | inr v => match field v "is_valid" with
             | Some (PBool b) => Some b
             | _ => None
             end
  | inl _ => None
  end.

(** The variant of the envelope a call returns; none when it raises. *)
Definition outcome (r : result pyval) : option variant :=
  match r with
  | inr v => variant_of v
  | inl _ => None
  end.

(** A call that returns an envelope of one of the given variants. *)
Definition returns (r : result pyval) (ts : list variant) : Prop :=
  exists t, outcome r = Some t /\ In t ts.

(** The [amount] of the [output] of the envelope a call returns. *)
Definition output_amount (r : result pyval) : option float :=
  match r with
  | inr v =>
      match field v "output" with
      | Some out => match field out "amount" with
                    | Some (PFloat f) => Some f
                    | _ => None
                    end
      | None => None
      end
  | inl _ => None
  end.

(** Equal within floating-point tolerance: the first number is finite and
    differs from the second by at most a relative [tolerance]. *)
Definition tolerance : R := (/ 10 ^ 15)%R.

Definition close (x y : float) : Prop :=
  finite x = true /\ (Rabs (F2R x - F2R y) <= tolerance * Rabs (F2R y))%R.

(** The amounts whose conversions neither overflow nor underflow for any
    pair of units: zero, and the magnitudes from 1e-270 to 1e270. *)
Definition amount_min : float := 1e-270%float.
Definition amount_max : float := 1e270%float.

Definition amount_in_range (a : float) : bool :=
  (a =? 0)%float || ((amount_min <=? abs a) && (abs a <=? amount_max))%float.

(** The envelope a call returns, without one of its entries. *)
Definition without_field (k : string) (r : result pyval) : result pyval :=
  match r with
  | inr (PDict d) =>
      inr (PDict (filter (fun kv => negb (String.eqb (fst kv) k)) d))
  | other => other
  end.

(** A key of a table and the entry stored under it. *)
Definition has_entry {A : Type} (table : list (string * A)) (k : string) (v : A)
  : Prop := In (k, v) table.

Definition is_key {A : Type} (table : list (string * A)) (k : string) : Prop :=
  In k (map fst table).

(** UnitDefinition: a unit key maps to its chain family and to its factor
    relative to the base unit of the family. *)
Definition unit_definitions : list (string * (string * float)) :=
  [ ("wei", ("ethereum", 1%float));
    ("gwei", ("ethereum", 1e9%float));
    ("eth", ("ethereum", 1e18%float));
    ("ether", ("ethereum", 1e18%float));
    ("satoshi", ("bitcoin", 1%float));
    ("sat", ("bitcoin", 1%float));
    ("btc", ("bitcoin", 1e8%float));
    ("bitcoin", ("bitcoin", 1e8%float));
    ("lamport", ("solana", 1%float));
    ("lamports", ("solana", 1%float));
    ("sol", ("solana", 1e9%float));
    ("solana", ("solana", 1e9%float)) ].

Definition known_units : list string := map fst unit_definitions.

(** The chains the address validator supports. *)
Definition supported_chains : list string := ["ethereum"; "bitcoin"; "solana"].

(** Alphabets, written out. Base58 is the digits 1-9, the capitals but I
    and O, and the small letters but l. The Bitcoin pattern of the code
    admits every small letter and every digit, and the capitals but I, O. *)
Definition hex_digits : string := "0123456789abcdefABCDEF".
Definition base58 : string :=
  "123456789ABCDEFGHJKLMNPQRSTUVWXYZabcdefghijkmnopqrstuvwxyz".
Definition bitcoin_chars : string :=
  "0123456789ABCDEFGHJKLMNPQRSTUVWXYZabcdefghijklmnopqrstuvwxyz".

Fixpoint mem (c : ascii) (alphabet : string) : bool :=
  match alphabet with
  | EmptyString => false
  | String a rest => Ascii.eqb c a || mem c rest
  end.

Fixpoint all_in (alphabet : string) (s : string) : bool :=
  match s with
  | EmptyString => true
  | String c s' => mem c alphabet && all_in alphabet s'
  end.

Fixpoint drop (n : nat) (s : string) : string :=
  match n, s with
  | S n', String _ s' => drop n' s'
  | _, _ => s
  end.

Fixpoint starts_with (p s : string) : bool :=
  match p, s with
  | EmptyString, _ => true
  | String a p', String c s' => Ascii.eqb c a && starts_with p' s'
  | String _ _, EmptyString => false
  end.

Definition between (lo hi n : nat) : bool := Nat.leb lo n && Nat.leb n hi.

(** [lo] to [hi] characters, all of the alphabet. *)
Definition tail_ok (alphabet : string) (lo hi : nat) (s : string) : bool :=
  between lo hi (String.length s) && all_in alphabet s.

(** One of the given prefixes followed by [lo] to [hi] characters of the
    alphabet, nothing more. *)
Definition prefixed_shape (prefixes : list string) (alphabet : string)
    (lo hi : nat) (s : string) : bool :=
  existsb
    (fun p => starts_with p s && tail_ok alphabet lo hi (drop (String.length p) s))
    prefixes.

(** Ethereum: ["0x"] followed by exactly 40 hexadecimal characters. *)
Definition ethereum_shape : string -> bool :=
  prefixed_shape ["0x"] hex_digits 40 40.

(** Bitcoin as the specification words it: ["1"], ["3"] or ["bc1"], then
    25 to 62 letters and digits without the characters Base58 leaves out. *)
Definition bitcoin_shape_claimed : string -> bool :=
  prefixed_shape ["1"; "3"; "bc1"] base58 25 62.

(** Bitcoin with the alphabet of the code's pattern. *)
Definition bitcoin_shape : string -> bool :=
  prefixed_shape ["1"; "3"; "bc1"] bitcoin_chars 25 62.

(** Solana: 32 to 44 characters of Base58. *)
Definition solana_shape : string -> bool := tail_ok base58 32 44.

(** The last character is a newline. *)
Fixpoint ends_with_newline (s : string) : bool :=
  match s with
  | EmptyString => false
  | String c EmptyString => Ascii.eqb c "010"%char
  | String _ s' => ends_with_newline s'
  end.

(** The string without its last character. *)
Fixpoint without_last (s : string) : string :=
  match s with
  | EmptyString => EmptyString
  | String _ EmptyString => EmptyString
  | String c s' => String c (without_last s')
  end.

(** What a pattern closed by [$] accepts when it is meant to describe
    [shape]: the strings of the shape, and those strings followed by one
    newline. *)
Definition accepts (shape : string -> bool) (s : string) : bool :=
  shape s || ends_with_newline s && shape (without_last s).

End Spec.

(** The compiled forms of the three patterns of [validations]. *)

Module Compiled.
Import Re.

Definition lit (c : ascii) : regex := Chr [(Py.ord c, Py.ord c)].

Definition hex_class : class := [(97, 102); (65, 70); (48, 57)]%N.
Definition bitcoin_class : class :=
  [(97, 122); (65, 72); (74, 78); (80, 90); (48, 57)]%N.
Definition base58_class : class :=
  [(49, 57); (65, 72); (74, 78); (80, 90); (97, 107); (109, 122)]%N.

(** [^0x[a-fA-F0-9]{40}$] *)
Definition ethereum : regex :=
  Seq Bol (Seq (lit "0") (Seq (lit "x") (Seq (Rep (Chr hex_class) 40 40) Eol))).

(** [^(1|3|bc1)[a-zA-HJ-NP-Z0-9]{25,62}$] *)
Definition bitcoin : regex :=
  Seq Bol
    (Seq (Alt (lit "1") (Alt (lit "3") (Seq (lit "b") (Seq (lit "c") (lit "1")))))
       (Seq (Rep (Chr bitcoin_class) 25 62) Eol)).

(** [^[1-9A-HJ-NP-Za-km-z]{32,44}$] *)
Definition solana : regex :=
  Seq Bol (Seq (Rep (Chr base58_class) 32 44) Eol).

(** The continuation of [re.match]: any match is a match. *)
Definition done : nat -> string -> bool := fun _ _ => true.

End Compiled.

(** ** Further vocabulary

    Readings of an envelope and predicates on strings that the properties
    beyond the specification's own are stated with. *)

Module Reading.
Import Py Spec.

(** The strings of a list entry of the envelope a call returns: the keys
    it suggests. Empty when there is no such entry. *)
Definition listed (k : string) (r : result pyval) : list string :=
  match r with
  | inr v =>
      match field v k with
      | Some (PList l) =>
          flat_map (fun x => match x with PStr s => [s] | _ => [] end) l
      | _ => []
      end
  | inl _ => []
  end.

(** The [blockchain] entry of the envelope a call returns. *)
Definition blockchain_of (r : result pyval) : option string :=
  match r with
  | inr v => match field v "blockchain" with
             | Some (PStr s) => Some s
             | _ => None
             end
  | inl _ => None
  end.

(** An entry of the payload of a success: [r[outer][k]]. *)
Definition payload (outer k : string) (r : result pyval) : option pyval :=
  match r with
  | inr v => match field v outer with
             | Some d => field d k
             | None => None
             end
  | inl _ => None
  end.

(** Only whitespace. *)
Fixpoint all_space (s : string) : bool :=
  match s with
  | EmptyString => true
  | String c s' => isspace c && all_space s'
  end.

(** The first, and the last, character is whitespace. *)
Definition starts_with_space (s : string) : bool :=
  match s with
  | String c _ => isspace c
  | EmptyString => false
  end.

Fixpoint ends_with_space (s : string) : bool :=
  match s with
  | EmptyString => false
  | String c EmptyString => isspace c
  | String _ s' => ends_with_space s'
  end.

End Reading.

(** * Properties *)

Import Py Spec.

(** ** Dicts *)

Lemma contains_is_key (d : dict) (k : string) :
  contains d k = true <-> is_key d k.
Proof.
  unfold is_key. induction d as [|[k' v] d IH]; simpl.
  - split; [discriminate | tauto].
  - destruct (String.eqb_spec k k') as [->|Hne].
    + split; auto.
    + rewrite IH. split; [auto | intros [H|H]; [congruence | exact H]].
Qed.

Lemma contains_false (d : dict) (k : string) :
  contains d k = false <-> ~ is_key d k.
Proof.
  rewrite <- contains_is_key. destruct (contains d k); split; congruence.
Qed.

Lemma getitem_has_entry (d : dict) (k : string) (v : pyval) :
  NoDup (map fst d) -> has_entry d k v -> getitem d k = ret v.
Proof.
  unfold has_entry. induction d as [|[k' v'] d IH]; simpl; intros Hnd Hin.
  - contradiction.
  - inversion Hnd as [|? ? Hnotin Hnd']; subst.
    destruct Hin as [Heq|Hin].
    + inversion Heq; subst. now rewrite String.eqb_refl.
    + destruct (String.eqb_spec k k') as [->|Hne].
      * exfalso. apply Hnotin. change k' with (fst (k', v)). now apply in_map.
      * now apply IH.
Qed.

Lemma contains_getitem (d : dict) (k : string) :
  contains d k = true -> exists v, getitem d k = ret v /\ has_entry d k v.
Proof.
  unfold has_entry. induction d as [|[k' v'] d IH]; simpl; [discriminate|].
  destruct (String.eqb_spec k k') as [->|Hne]; intros H.
  - exists v'. auto.
  - destruct (IH H) as [v [Hg Hin]]. exists v. auto.
Qed.

(** No key appears twice in a table literal of the code. *)
Ltac nodup_keys :=
  repeat (constructor; [simpl; intuition discriminate|]); constructor.

Lemma blockchain_data_keys : NoDup (map fst App.blockchain_data).
Proof. simpl. nodup_keys. Qed.

(** ** Chain knowledge lookup *)

(** C5. [get_blockchain_info] lowercases and trims its input to a key. A
    key of the chain table gives Success with the full record stored under
    it; any other key gives NotFound with the message and the list of all
    keys of the table, which is not empty. ["ethereum"] gives a record
    whose symbol is ["ETH"]; ["dogecoin"] gives [not_found], and
    ["ethereum"], ["bitcoin"] and ["solana"] are among the chains listed. *)
Theorem get_blockchain_info_lookup :
  (forall chain_name record,
      has_entry App.blockchain_data (strip (lower chain_name)) record ->
      App.get_blockchain_info chain_name
      = ret (PDict [ ("status", PStr "success"); ("data", record) ]))
  /\ (forall chain_name,
      ~ is_key App.blockchain_data (strip (lower chain_name)) ->
      exists chains,
        App.get_blockchain_info chain_name
        = ret (PDict
            [ ("status", PStr "not_found");
              ("message", PStr ("Blockchain '" ++ chain_name ++ "' not found."));
              ("available_chains", PList chains) ])
        /\ chains = map PStr (map fst App.blockchain_data)
        /\ chains <> [])
  /\ (exists record,
      App.get_blockchain_info "ethereum"
      = ret (PDict [ ("status", PStr "success"); ("data", record) ])
      /\ field record "symbol" = Some (PStr "ETH"))
  /\ (exists message chains,
      App.get_blockchain_info "dogecoin"
      = ret (PDict
          [ ("status", PStr "not_found"); ("message", message);
            ("available_chains", PList chains) ])
      /\ In (PStr "ethereum") chains
      /\ In (PStr "bitcoin") chains
      /\ In (PStr "solana") chains).
Proof.
  repeat split.
  - intros chain_name record Hentry. unfold App.get_blockchain_info.
    assert (Hk : contains App.blockchain_data (strip (lower chain_name)) = true).
    { apply contains_is_key. unfold is_key.
      change (strip (lower chain_name)) with (fst (strip (lower chain_name), record)).
      now apply in_map. }
    rewrite Hk.
    now rewrite (getitem_has_entry _ _ _ blockchain_data_keys Hentry).
  - intros chain_name Hnot. apply contains_false in Hnot.
    unfold App.get_blockchain_info. rewrite Hnot.
    eexists. split; [reflexivity|]. split; [|discriminate].
    unfold keys. now rewrite map_map.
  - eexists. split; [vm_compute; reflexivity | reflexivity].
  - do 2 eexists. split; [vm_compute; reflexivity|].
    simpl. intuition.
Qed.

(** ** Regular expressions *)

Lemma compile_ethereum :
  Re.compile "^0x[a-fA-F0-9]{40}$" = Some Compiled.ethereum.
Proof. vm_compute. reflexivity. Qed.

Lemma compile_bitcoin :
  Re.compile "^(1|3|bc1)[a-zA-HJ-NP-Z0-9]{25,62}$" = Some Compiled.bitcoin.
Proof. vm_compute. reflexivity. Qed.

Lemma compile_solana :
  Re.compile "^[1-9A-HJ-NP-Za-km-z]{32,44}$" = Some Compiled.solana.
Proof. vm_compute. reflexivity. Qed.

(** The classes of the patterns are the alphabets, character by character. *)
Ltac every_char c := destruct c as [[] [] [] [] [] [] [] []]; reflexivity.

Lemma hex_class_alphabet c : Re.class_mem Compiled.hex_class c = mem c hex_digits.
Proof. every_char c. Qed.

Lemma bitcoin_class_alphabet c :
  Re.class_mem Compiled.bitcoin_class c = mem c bitcoin_chars.
Proof. every_char c. Qed.

Lemma base58_class_alphabet c :
  Re.class_mem Compiled.base58_class c = mem c base58.
Proof. every_char c. Qed.

Lemma lit_class (a c : ascii) :
  Re.class_mem [(ord a, ord a)] c = Ascii.eqb c a.
Proof.
  unfold Re.class_mem, ord; simpl. rewrite orb_false_r.
  destruct (Ascii.eqb_spec c a) as [->|Hne].
  - now rewrite N.leb_refl.
  - destruct (N.leb_spec (N_of_ascii a) (N_of_ascii c)) as [H1|H1]; [|reflexivity].
    destruct (N.leb_spec (N_of_ascii c) (N_of_ascii a)) as [H2|H2]; [|reflexivity].
    exfalso. apply Hne.
    rewrite <- (ascii_N_embedding c), <- (ascii_N_embedding a).
    f_equal. lia.
Qed.

(** The unfolding equations of a bounded repetition. *)
Lemma run_rep_0 r lo pos s k :
  Re.run (Re.Rep r lo 0) pos s k = match lo with O => k pos s | S _ => false end.
Proof. reflexivity. Qed.

Lemma run_rep_S r lo hi pos s k :
  Re.run (Re.Rep r lo (S hi)) pos s k
  = Re.run r pos s (fun pos' s' => Re.run (Re.Rep r (Nat.pred lo) hi) pos' s' k)
    || match lo with O => k pos s | S _ => false end.
Proof. reflexivity. Qed.

Section Tail.

Variable cls : Re.class.
Variable alphabet : string.
Hypothesis cls_alphabet : forall c, Re.class_mem cls c = mem c alphabet.

(** A bounded repetition of a class closed by [$]: [lo] to [hi] characters
    of the alphabet, then the end of the string or one last newline. *)
Lemma run_tail hi : forall lo pos s,
  Re.run (Re.Seq (Re.Rep (Re.Chr cls) lo hi) Re.Eol) pos s Compiled.done
  = accepts (tail_ok alphabet lo hi) s.
Proof.
  unfold accepts, tail_ok, between, Compiled.done.
  induction hi as [|hi IH]; intros lo pos s.
  - cbn [Re.run]. change (Re.run (Re.Rep (Re.Chr cls) lo 0) pos s ?k)
      with (match lo with O => k pos s | S _ => false end).
    destruct lo as [|lo]; destruct s as [|c [|c' s']]; simpl;
      rewrite ?andb_true_r, ?andb_false_r, ?orb_false_r; reflexivity.
  - specialize (IH (Nat.pred lo)). cbn [Re.run] in IH |- *.
    destruct s as [|c s'].
    + destruct lo; reflexivity.
    + rewrite IH, cls_alphabet.
      destruct s' as [|c' s'']; destruct lo as [|lo]; simpl; btauto.
Qed.

Lemma run_tail_k lo hi pos s :
  Re.run (Re.Rep (Re.Chr cls) lo hi) pos s
    (fun pos' s' => Re.run Re.Eol pos' s' Compiled.done)
  = accepts (tail_ok alphabet lo hi) s.
Proof. exact (run_tail hi lo pos s). Qed.

End Tail.

(** A literal prefix commutes with the removal of a last newline. *)
Lemma starts_with_newline (T : string -> bool) (p : string) : forall s,
  starts_with p s
  && (ends_with_newline (drop (String.length p) s)
      && T (without_last (drop (String.length p) s)))
  = ends_with_newline s
    && (starts_with p (without_last s)
        && T (drop (String.length p) (without_last s))).
Proof.
  induction p as [|a p IH]; intros s.
  - reflexivity.
  - destruct s as [|c [|c' s']].
    + reflexivity.
    + simpl. destruct p; simpl; btauto.
    + specialize (IH (String c' s')).
      change (String.length (String a p)) with (S (String.length p)).
      change (without_last (String c (String c' s')))
        with (String c (without_last (String c' s'))).
      change (ends_with_newline (String c (String c' s')))
        with (ends_with_newline (String c' s')).
      cbn [starts_with drop].
      rewrite <- andb_assoc, IH. btauto.
Qed.

Lemma prefix_accepts (T : string -> bool) (p s : string) :
  starts_with p s && accepts T (drop (String.length p) s)
  = accepts (fun s => starts_with p s && T (drop (String.length p) s)) s.
Proof.
  unfold accepts. rewrite <- (starts_with_newline T p s). btauto.
Qed.

Lemma run_lit a pos s k :
  Re.run (Compiled.lit a) pos s k
  = match s with
    | String c s' => Ascii.eqb c a && k (S pos) s'
    | EmptyString => false
    end.
Proof.
  destruct s; [reflexivity|].
  unfold Compiled.lit. cbn [Re.run]. now rewrite lit_class.
Qed.

Lemma run_seq r1 r2 pos s k :
  Re.run (Re.Seq r1 r2) pos s k
  = Re.run r1 pos s (fun pos' s' => Re.run r2 pos' s' k).
Proof. reflexivity. Qed.

Lemma run_alt r1 r2 pos s k :
  Re.run (Re.Alt r1 r2) pos s k = Re.run r1 pos s k || Re.run r2 pos s k.
Proof. reflexivity. Qed.

Lemma run_bol pos s k : Re.run Re.Bol pos s k = Nat.eqb pos 0 && k pos s.
Proof. reflexivity. Qed.

(** What each of the three patterns accepts. *)
Lemma run_ethereum s :
  Re.run Compiled.ethereum 0 s Compiled.done = accepts ethereum_shape s.
Proof.
  unfold ethereum_shape, prefixed_shape, existsb.
  transitivity (starts_with "0x" s
                && accepts (tail_ok hex_digits 40 40) (drop (String.length "0x") s)).
  - unfold Compiled.ethereum.
    rewrite run_seq, run_bol, run_seq, run_lit.
    destruct s as [|c s1]; [reflexivity|]. cbn iota beta.
    rewrite run_seq, run_lit.
    destruct s1 as [|c1 s2]; [simpl; btauto|]. cbn iota beta.
    rewrite (run_tail _ _ hex_class_alphabet). simpl. btauto.
  - rewrite prefix_accepts. unfold accepts. btauto.
Qed.

Lemma run_bitcoin s :
  Re.run Compiled.bitcoin 0 s Compiled.done = accepts bitcoin_shape s.
Proof.
  unfold bitcoin_shape, prefixed_shape, existsb.
  pose (A := accepts (tail_ok bitcoin_chars 25 62)).
  transitivity (starts_with "1" s && A (drop (String.length "1") s)
                || starts_with "3" s && A (drop (String.length "3") s)
                || starts_with "bc1" s && A (drop (String.length "bc1") s)).
  - subst A. unfold Compiled.bitcoin.
    rewrite run_seq, run_bol, run_seq, !run_alt, !run_seq.
    rewrite !run_lit.
    destruct s as [|c s1]; [reflexivity|]. cbn iota beta.
    rewrite !run_seq, !run_lit.
    rewrite (run_tail_k _ _ bitcoin_class_alphabet).
    destruct s1 as [|c1 s2]; [simpl; btauto|]. cbn iota beta.
    rewrite !run_lit.
    destruct s2 as [|c2 s3]; [simpl; btauto|]. cbn iota beta.
    rewrite (run_tail _ _ bitcoin_class_alphabet). simpl. btauto.
  - subst A. rewrite !prefix_accepts. unfold accepts. btauto.
Qed.

Lemma run_solana s :
  Re.run Compiled.solana 0 s Compiled.done = accepts solana_shape s.
Proof.
  unfold Compiled.solana. rewrite run_seq, run_bol.
  now rewrite (run_tail _ _ base58_class_alphabet).
Qed.

Lemma match_ethereum s :
  Re.match_ "^0x[a-fA-F0-9]{40}$" s = ret (accepts ethereum_shape s).
Proof. unfold Re.match_. rewrite compile_ethereum. f_equal. apply run_ethereum. Qed.

Lemma match_bitcoin s :
  Re.match_ "^(1|3|bc1)[a-zA-HJ-NP-Z0-9]{25,62}$" s = ret (accepts bitcoin_shape s).
Proof. unfold Re.match_. rewrite compile_bitcoin. f_equal. apply run_bitcoin. Qed.

Lemma match_solana s :
  Re.match_ "^[1-9A-HJ-NP-Za-km-z]{32,44}$" s = ret (accepts solana_shape s).
Proof. unfold Re.match_. rewrite compile_solana. f_equal. apply run_solana. Qed.

(** ** Address validator *)

(** The success envelope of the validator. *)
Lemma validations_keys : NoDup (map fst App.validations).
Proof. simpl. nodup_keys. Qed.

Ltac validate_with H match_lemma :=
  cbv zeta; rewrite H; cbn -[Re.match_]; rewrite match_lemma;
  cbn -[accepts]; reflexivity.

Lemma validate_ethereum address chain_arg :
  lower (with_default chain_arg "ethereum") = "ethereum" ->
  App.validate_wallet_address address chain_arg
  = ret (PDict
      [ ("status", PStr "success");
        ("address", PStr address);
        ("chain", PStr (with_default chain_arg "ethereum"));
        ("is_valid", PBool (accepts ethereum_shape address));
        ("format_description",
         PStr "Ethereum addresses start with '0x' followed by 40 hex characters");
        ("message", PStr (if accepts ethereum_shape address
                          then "Address format is valid!"
                          else "Invalid address format.")) ]).
Proof. intros H. unfold App.validate_wallet_address. validate_with H match_ethereum. Qed.

Lemma validate_bitcoin address chain_arg :
  lower (with_default chain_arg "ethereum") = "bitcoin" ->
  App.validate_wallet_address address chain_arg
  = ret (PDict
      [ ("status", PStr "success");
        ("address", PStr address);
        ("chain", PStr (with_default chain_arg "ethereum"));
        ("is_valid", PBool (accepts bitcoin_shape address));
        ("format_description",
         PStr "Bitcoin addresses start with '1', '3', or 'bc1'");
        ("message", PStr (if accepts bitcoin_shape address
                          then "Address format is valid!"
                          else "Invalid address format.")) ]).
Proof. intros H. unfold App.validate_wallet_address. validate_with H match_bitcoin. Qed.

Lemma validate_solana address chain_arg :
  lower (with_default chain_arg "ethereum") = "solana" ->
  App.validate_wallet_address address chain_arg
  = ret (PDict
      [ ("status", PStr "success");
        ("address", PStr address);
        ("chain", PStr (with_default chain_arg "ethereum"));
        ("is_valid", PBool (accepts solana_shape address));
        ("format_description",
         PStr "Solana addresses are base58 encoded, 32-44 characters");
        ("message", PStr (if accepts solana_shape address
                          then "Address format is valid!"
                          else "Invalid address format.")) ]).
Proof. intros H. unfold App.validate_wallet_address. validate_with H match_solana. Qed.

Lemma validate_unsupported address chain_arg :
  ~ In (lower (with_default chain_arg "ethereum")) supported_chains ->
  App.validate_wallet_address address chain_arg
  = ret (PDict
      [ ("status", PStr "error");
        ("message", PStr ("Validation not supported for chain: "
                          ++ with_default chain_arg "ethereum"));
        ("supported_chains", PList (map PStr supported_chains)) ]).
Proof.
  intros H. unfold App.validate_wallet_address. cbv zeta.
  assert (Hc : contains App.validations (lower (with_default chain_arg "ethereum")) = false).
  { apply contains_false. exact H. }
  rewrite Hc. reflexivity.
Qed.


(** C2, at the input that breaks it. The address is ["0x"], 40 hexadecimal
    characters and a newline: 43 characters, not of the Ethereum shape, and
    [validate_wallet_address] returns [is_valid] true for it, because [$]
    also matches before a last newline. The addresses of the claim's
    examples are judged as it says. *)
Theorem validate_ethereum_accepts_trailing_newline :
  let address := "0x71C7656EC7ab88b098defB751B7401B5f6d8976F" ++ nl in
  String.length address = 43
  /\ ethereum_shape address = false
  /\ valid_flag (App.validate_wallet_address address (Some "ethereum")) = Some true
  /\ valid_flag (App.validate_wallet_address
                   "0x71C7656EC7ab88b098defB751B7401B5f6d8976F" (Some "ethereum"))
     = Some true
  /\ valid_flag (App.validate_wallet_address
                   "0x71C7656EC7ab88b098defB751B7401B5f6d8976" (Some "ethereum"))
     = Some false
  /\ valid_flag (App.validate_wallet_address "abc" (Some "ethereum")) = Some false.
Proof. vm_compute. repeat split. Qed.

(** What the Ethereum validator accepts, for every address: the strings of
    the Ethereum shape, and those strings followed by one newline. *)
Lemma validate_ethereum_flag address chain_arg :
  lower (with_default chain_arg "ethereum") = "ethereum" ->
  valid_flag (App.validate_wallet_address address chain_arg)
  = Some (accepts ethereum_shape address).
Proof. intros H. now rewrite (validate_ethereum _ _ H). Qed.

Lemma accepts_no_newline shape s :
  ends_with_newline s = false -> accepts shape s = shape s.
Proof. intros H. unfold accepts. rewrite H. btauto. Qed.

(** C7, as stated, fails: after the prefix ["1"] the first address has 25
    characters that are ['0'] and ['l'], which Base58 leaves out, and the
    validator accepts it. It also accepts the second, 26 characters of
    Base58 closed by a newline, which is of neither shape. *)
Lemma validate_bitcoin_admits_zero_and_l :
  let address := "10l0l0l0l0l0l0l0l0l0l0l0l0" in
  let address' := "1BvBMSEYstWetqTFn5Au4m4GFg" ++ nl in
  bitcoin_shape_claimed address = false
  /\ valid_flag (App.validate_wallet_address address (Some "bitcoin")) = Some true
  /\ bitcoin_shape_claimed address' = false
  /\ bitcoin_shape address' = false
  /\ valid_flag (App.validate_wallet_address address' (Some "bitcoin")) = Some true.
Proof. vm_compute. repeat split. Qed.

(** C7, amended. For an address that does not end in a newline: with
    chain bitcoin, [is_valid] is true exactly when the address is ["1"],
    ["3"] or ["bc1"] followed by 25 to 62 characters among the digits 0-9,
    the small letters a-z and the capitals other than I and O; with chain
    solana, exactly when it is 32 to 44 characters of Base58. The chain
    alone selects the pattern. *)
Theorem validate_bitcoin_solana_shapes address chain_arg :
  ends_with_newline address = false ->
  (lower (with_default chain_arg "ethereum") = "bitcoin" ->
   valid_flag (App.validate_wallet_address address chain_arg)
   = Some (bitcoin_shape address))
  /\ (lower (with_default chain_arg "ethereum") = "solana" ->
      valid_flag (App.validate_wallet_address address chain_arg)
      = Some (solana_shape address)).
Proof.
  intros Hnl. split; intros H.
  - rewrite (validate_bitcoin _ _ H). cbn -[accepts].
    now rewrite accepts_no_newline.
  - rewrite (validate_solana _ _ H). cbn -[accepts].
    now rewrite accepts_no_newline.
Qed.

Lemma validate_bitcoin_solana_shapes_witness :
  (lower (with_default (Some "Bitcoin") "ethereum") = "bitcoin" ->
   valid_flag (App.validate_wallet_address
                 "1A1zP1eP5QGefi2DMPTfTL5SLmv7DivfNa" (Some "Bitcoin"))
   = Some (bitcoin_shape "1A1zP1eP5QGefi2DMPTfTL5SLmv7DivfNa"))
  /\ (lower (with_default (Some "Bitcoin") "ethereum") = "solana" ->
      valid_flag (App.validate_wallet_address
                    "1A1zP1eP5QGefi2DMPTfTL5SLmv7DivfNa" (Some "Bitcoin"))
      = Some (solana_shape "1A1zP1eP5QGefi2DMPTfTL5SLmv7DivfNa")).
Proof.
  apply (validate_bitcoin_solana_shapes
           "1A1zP1eP5QGefi2DMPTfTL5SLmv7DivfNa" (Some "Bitcoin")).
  reflexivity.
Defined.

(** ** Unit converter *)

(** Case analysis on an entry of the unit table. *)
Ltac unit_entry H :=
  unfold has_entry, unit_definitions in H; simpl in H;
  repeat (destruct H as [H|H]; [injection H as ? ? ?|]); try contradiction.

Ltac convert_at Hfrom Hto :=
  unfold App.convert_crypto_units; cbv zeta;
  rewrite <- Hfrom, <- Hto; vm_compute; reflexivity.

Lemma convert_same_family amount from_unit to_unit family k_from k_to :
  has_entry unit_definitions (lower from_unit) (family, k_from) ->
  has_entry unit_definitions (lower to_unit) (family, k_to) ->
  App.convert_crypto_units amount from_unit to_unit
  = ret (PDict
      [ ("status", PStr "success");
        ("input", PDict [ ("amount", PFloat amount); ("unit", PStr from_unit) ]);
        ("output", PDict [ ("amount", PFloat (amount * k_from / k_to));
                           ("unit", PStr to_unit) ]);
        ("blockchain", PStr family) ]).
Proof.
  intros Hfrom Hto.
  unit_entry Hfrom; unit_entry Hto; subst; try discriminate;
    match goal with
    | Hf : _ = lower from_unit, Ht : _ = lower to_unit |- _ => convert_at Hf Ht
    end.
Qed.

Lemma convert_unknown_unit amount from_unit to_unit :
  ~ In (lower from_unit) known_units \/ ~ In (lower to_unit) known_units ->
  App.convert_crypto_units amount from_unit to_unit
  = ret (PDict
      [ ("status", PStr "error");
        ("message", PStr "Invalid unit");
        ("available_units", PList (map PStr known_units)) ]).
Proof.
  intros H. unfold App.convert_crypto_units. cbv zeta.
  assert (Hc : negb (contains App.conversions (lower from_unit))
               || negb (contains App.conversions (lower to_unit)) = true).
  { destruct H as [H|H]; apply (contains_false App.conversions) in H;
      rewrite H; simpl; btauto. }
  rewrite Hc. reflexivity.
Qed.

(** C1. When the lowercased units are both in the unit table and of one
    family, [convert_crypto_units] returns Success with the amount and
    unit given, the amount [amount * factor(from) / factor(to)] and the
    target unit, and the family. When one of them is not in the table it
    returns Error with the list of all units. 1 eth is 1e9 gwei, and
    21000 gwei are 0.000021 eth. *)
Theorem convert_crypto_units_formula :
  (forall amount from_unit to_unit family k_from k_to,
      has_entry unit_definitions (lower from_unit) (family, k_from) ->
      has_entry unit_definitions (lower to_unit) (family, k_to) ->
      App.convert_crypto_units amount from_unit to_unit
      = ret (PDict
          [ ("status", PStr "success");
            ("input", PDict [ ("amount", PFloat amount);
                              ("unit", PStr from_unit) ]);
            ("output", PDict [ ("amount", PFloat (amount * k_from / k_to));
                               ("unit", PStr to_unit) ]);
            ("blockchain", PStr family) ]))
  /\ (forall amount from_unit to_unit,
      ~ In (lower from_unit) known_units \/ ~ In (lower to_unit) known_units ->
      App.convert_crypto_units amount from_unit to_unit
      = ret (PDict
          [ ("status", PStr "error");
            ("message", PStr "Invalid unit");
            ("available_units", PList (map PStr known_units)) ]))
  /\ output_amount (App.convert_crypto_units 1 "eth" "gwei") = Some 1e9%float
  /\ output_amount (App.convert_crypto_units 21000 "gwei" "eth")
     = Some 0.000021%float.
Proof.
  split; [exact convert_same_family|].
  split; [exact convert_unknown_unit|].
  split; vm_compute; reflexivity.
Qed.

(** C3. When the lowercased units are both in the unit table and of
    different families, [convert_crypto_units] returns the Error envelope
    whose message names the two families; the envelope has no output
    amount. *)
Theorem convert_crypto_units_cross_family
    amount from_unit to_unit family_from k_from family_to k_to :
  has_entry unit_definitions (lower from_unit) (family_from, k_from) ->
  has_entry unit_definitions (lower to_unit) (family_to, k_to) ->
  family_from <> family_to ->
  App.convert_crypto_units amount from_unit to_unit
  = ret (PDict
      [ ("status", PStr "error");
        ("message", PStr ("Cannot convert between " ++ family_from
                          ++ " and " ++ family_to)) ])
  /\ outcome (App.convert_crypto_units amount from_unit to_unit) = Some Error
  /\ output_amount (App.convert_crypto_units amount from_unit to_unit) = None.
Proof.
  intros Hfrom Hto Hne.
  unit_entry Hfrom; unit_entry Hto; subst; try congruence;
    match goal with
    | Hf : _ = lower from_unit, Ht : _ = lower to_unit |- _ =>
        unfold App.convert_crypto_units; cbv zeta;
        rewrite <- Hf, <- Ht; vm_compute; repeat split
    end.
Qed.

Lemma convert_crypto_units_cross_family_witness :
  App.convert_crypto_units 1 "eth" "btc"
  = ret (PDict
      [ ("status", PStr "error");
        ("message", PStr ("Cannot convert between " ++ "ethereum"
                          ++ " and " ++ "bitcoin")) ])
  /\ outcome (App.convert_crypto_units 1 "eth" "btc") = Some Error
  /\ output_amount (App.convert_crypto_units 1 "eth" "btc") = None.
Proof.
  apply (convert_crypto_units_cross_family
           1 "eth" "btc" "ethereum" 1e18 "bitcoin" 1e8).
  - do 2 right. left. reflexivity.
  - do 6 right. left. reflexivity.
  - discriminate.
Defined.

(** ** Totality *)

Lemma outcome_in (r : result pyval) (t : variant) (ts : list variant) :
  outcome r = Some t -> In t ts -> returns r ts.
Proof. intros H Hin. exists t. auto. Qed.

(** A key that a table contains, as one of the keys of its literal. *)
Ltac key_cases H :=
  apply contains_is_key in H; unfold is_key in H; simpl in H;
  repeat (destruct H as [H|H]); try contradiction.

Lemma get_blockchain_info_returns chain_name :
  returns (App.get_blockchain_info chain_name) [Success; NotFound].
Proof.
  unfold App.get_blockchain_info. cbv zeta.
  destruct (contains App.blockchain_data (strip (lower chain_name))) eqn:E.
  - destruct (contains_getitem _ _ E) as [v [Hv _]]. rewrite Hv.
    apply outcome_in with Success; [reflexivity | simpl; auto].
  - apply outcome_in with NotFound; [reflexivity | simpl; auto].
Qed.

Lemma validate_wallet_address_returns address chain_arg :
  returns (App.validate_wallet_address address chain_arg) [Success; Error].
Proof.
  destruct (contains App.validations (lower (with_default chain_arg "ethereum")))
    eqn:E.
  - key_cases E; symmetry in E.
    + rewrite (validate_ethereum _ _ E).
      apply outcome_in with Success; [reflexivity | simpl; auto].
    + rewrite (validate_bitcoin _ _ E).
      apply outcome_in with Success; [reflexivity | simpl; auto].
    + rewrite (validate_solana _ _ E).
      apply outcome_in with Success; [reflexivity | simpl; auto].
  - unfold App.validate_wallet_address. cbv zeta. rewrite E.
    apply outcome_in with Error; [reflexivity | simpl; auto].
Qed.

Lemma explain_gas_fees_returns chain_arg :
  returns (App.explain_gas_fees chain_arg) [Success; NotFound].
Proof.
  unfold App.explain_gas_fees. cbv zeta.
  destruct (contains App.gas_info (lower (with_default chain_arg "ethereum")))
    eqn:E.
  - destruct (contains_getitem _ _ E) as [v [Hv _]]. rewrite Hv.
    apply outcome_in with Success; [reflexivity | simpl; auto].
  - apply outcome_in with NotFound; [reflexivity | simpl; auto].
Qed.

Lemma get_smart_contract_template_returns contract_type :
  returns (App.get_smart_contract_template contract_type) [Success; NotFound].
Proof.
  unfold App.get_smart_contract_template. cbv zeta.
  destruct (contains App.templates (strip (lower contract_type))) eqn:E.
  - destruct (contains_getitem _ _ E) as [v [Hv _]]. rewrite Hv.
    apply outcome_in with Success; [reflexivity | simpl; auto].
  - apply outcome_in with NotFound; [reflexivity | simpl; auto].
Qed.

Lemma convert_crypto_units_returns amount from_unit to_unit :
  returns (App.convert_crypto_units amount from_unit to_unit) [Success; Error].
Proof.
  unfold App.convert_crypto_units. cbv zeta.
  destruct (contains App.conversions (lower from_unit)) eqn:Ef;
    [destruct (contains App.conversions (lower to_unit)) eqn:Et|].
  - key_cases Ef; key_cases Et; rewrite <- Ef, <- Et;
      first [ apply outcome_in with Success; [vm_compute; reflexivity | simpl; auto]
            | apply outcome_in with Error; [vm_compute; reflexivity | simpl; auto] ].
  - cbn [negb orb]. apply outcome_in with Error; [reflexivity | simpl; auto].
  - cbn [negb orb]. apply outcome_in with Error; [reflexivity | simpl; auto].
Qed.

(** C9. None of the five operations raises: for every input each returns
    an envelope, Success or NotFound for the three lookups, Success or
    Error for the validator and the converter. *)
Theorem tools_return_envelopes :
  (forall chain_name,
      returns (App.get_blockchain_info chain_name) [Success; NotFound])
  /\ (forall address chain_arg,
      returns (App.validate_wallet_address address chain_arg) [Success; Error])
  /\ (forall chain_arg,
      returns (App.explain_gas_fees chain_arg) [Success; NotFound])
  /\ (forall contract_type,
      returns (App.get_smart_contract_template contract_type) [Success; NotFound])
  /\ (forall amount from_unit to_unit,
      returns (App.convert_crypto_units amount from_unit to_unit) [Success; Error]).
Proof.
  repeat split.
  - exact get_blockchain_info_returns.
  - exact validate_wallet_address_returns.
  - exact explain_gas_fees_returns.
  - exact get_smart_contract_template_returns.
  - exact convert_crypto_units_returns.
Qed.

(** ** Keys, case and blanks *)

(** The two lookups that trim depend on their input through the key only,
    when the key is found. *)
Lemma get_blockchain_info_by_key a b :
  strip (lower a) = strip (lower b) ->
  is_key App.blockchain_data (strip (lower a)) ->
  App.get_blockchain_info a = App.get_blockchain_info b.
Proof.
  intros Hab Hk. apply contains_is_key in Hk.
  unfold App.get_blockchain_info. cbv zeta. rewrite <- Hab, Hk. reflexivity.
Qed.

Lemma get_smart_contract_template_by_key a b :
  strip (lower a) = strip (lower b) ->
  is_key App.templates (strip (lower a)) ->
  App.get_smart_contract_template a = App.get_smart_contract_template b.
Proof.
  intros Hab Hk. apply contains_is_key in Hk.
  unfold App.get_smart_contract_template. cbv zeta. rewrite <- Hab, Hk. reflexivity.
Qed.

(** C6, at the inputs that break it. [explain_gas_fees],
    [validate_wallet_address] and [convert_crypto_units] lowercase their
    key and do not trim it: [" ETHEREUM "] and [" ETH "] are not found
    where ["ethereum"] and ["eth"] are. [get_blockchain_info] and
    [get_smart_contract_template] do trim. *)
Theorem blanks_around_a_key :
  outcome (App.explain_gas_fees (Some " ETHEREUM ")) = Some NotFound
  /\ outcome (App.explain_gas_fees (Some "ethereum")) = Some Success
  /\ outcome (App.validate_wallet_address
                "0x71C7656EC7ab88b098defB751B7401B5f6d8976F" (Some " ETHEREUM "))
     = Some Error
  /\ outcome (App.validate_wallet_address
                "0x71C7656EC7ab88b098defB751B7401B5f6d8976F" (Some "ethereum"))
     = Some Success
  /\ outcome (App.convert_crypto_units 1 " ETH " "gwei") = Some Error
  /\ outcome (App.convert_crypto_units 1 "eth" "gwei") = Some Success
  /\ App.get_blockchain_info " ETHEREUM " = App.get_blockchain_info "ethereum"
  /\ App.get_smart_contract_template " ERC20 "
     = App.get_smart_contract_template "erc20".
Proof. vm_compute. repeat split. Qed.

(** ** The two files *)

Lemma validations_same_keys k :
  contains Agent.validations k = contains App.validations k.
Proof. reflexivity. Qed.

Lemma gas_info_same_keys k :
  contains Agent.gas_info k = contains App.gas_info k.
Proof. reflexivity. Qed.

Lemma templates_same_keys k :
  contains Agent.templates k = contains App.templates k.
Proof. reflexivity. Qed.

Lemma agree_convert amount from_unit to_unit :
  outcome (App.convert_crypto_units amount from_unit to_unit)
  = outcome (Agent.convert_crypto_units amount from_unit to_unit)
  /\ (outcome (App.convert_crypto_units amount from_unit to_unit) = Some Success ->
      App.convert_crypto_units amount from_unit to_unit
      = Agent.convert_crypto_units amount from_unit to_unit).
Proof.
  unfold App.convert_crypto_units, Agent.convert_crypto_units. cbv zeta.
  replace Agent.conversions with App.conversions by reflexivity.
  destruct (contains App.conversions (lower from_unit)) eqn:Ef;
    [destruct (contains App.conversions (lower to_unit)) eqn:Et|].
  - key_cases Ef; key_cases Et; rewrite <- Ef, <- Et; vm_compute;
      (split; [reflexivity | intros H; first [reflexivity | discriminate H]]).
  - cbn [negb orb]. split; [reflexivity | discriminate].
  - cbn [negb orb]. split; [reflexivity | discriminate].
Qed.

Lemma agree_validate address chain_arg :
  without_field "format_description" (App.validate_wallet_address address chain_arg)
  = without_field "format_description"
      (Agent.validate_wallet_address address chain_arg).
Proof.
  unfold App.validate_wallet_address, Agent.validate_wallet_address. cbv zeta.
  rewrite validations_same_keys.
  destruct (contains App.validations (lower (with_default chain_arg "ethereum")))
    eqn:E.
  - key_cases E; rewrite <- E; cbn -[Re.match_];
      match goal with |- context [Re.match_ ?p ?a] => destruct (Re.match_ p a) end;
      reflexivity.
  - reflexivity.
Qed.

Lemma agree_gas chain_arg :
  outcome (App.explain_gas_fees chain_arg)
  = outcome (Agent.explain_gas_fees chain_arg).
Proof.
  unfold App.explain_gas_fees, Agent.explain_gas_fees. cbv zeta.
  rewrite gas_info_same_keys.
  destruct (contains App.gas_info (lower (with_default chain_arg "ethereum")))
    eqn:E; [|reflexivity].
  key_cases E; rewrite <- E; reflexivity.
Qed.

Lemma agree_template contract_type :
  outcome (App.get_smart_contract_template contract_type)
  = outcome (Agent.get_smart_contract_template contract_type).
Proof.
  unfold App.get_smart_contract_template, Agent.get_smart_contract_template.
  cbv zeta. rewrite templates_same_keys.
  destruct (contains App.templates (strip (lower contract_type))) eqn:E;
    [|reflexivity].
  key_cases E; rewrite <- E; reflexivity.
Qed.

Lemma agree_blockchain_info chain_name :
  strip (lower chain_name) <> "binance" ->
  outcome (App.get_blockchain_info chain_name)
  = outcome (Agent.get_blockchain_info chain_name).
Proof.
  intros Hne. unfold App.get_blockchain_info, Agent.get_blockchain_info. cbv zeta.
  destruct (contains App.blockchain_data (strip (lower chain_name))) eqn:E.
  - key_cases E; rewrite <- E; reflexivity.
  - assert (E' : contains Agent.blockchain_data (strip (lower chain_name)) = false).
    { apply contains_false. apply contains_false in E.
      unfold is_key in *. simpl in *. intuition congruence. }
    rewrite E'. reflexivity.
Qed.

(** C10, as stated, fails: ["binance"] is a key of the chain table of
    [agent.py] only, so the two [get_blockchain_info] answer NotFound and
    Success. *)
Lemma binance_is_known_to_the_agent_only :
  outcome (App.get_blockchain_info "binance") = Some NotFound
  /\ outcome (Agent.get_blockchain_info "binance") = Some Success.
Proof. vm_compute. split; reflexivity. Qed.

(** C10, amended. For every input the functions of the two files return
    envelopes of the same variant, but for [get_blockchain_info] on the key
    ["binance"]. [convert_crypto_units] returns the same Success envelope
    in both, and [validate_wallet_address] the same envelope in both up to
    the format description. *)
Theorem app_and_agent_agree :
  (forall chain_name,
      strip (lower chain_name) <> "binance" ->
      outcome (App.get_blockchain_info chain_name)
      = outcome (Agent.get_blockchain_info chain_name))
  /\ (forall address chain_arg,
      without_field "format_description"
        (App.validate_wallet_address address chain_arg)
      = without_field "format_description"
          (Agent.validate_wallet_address address chain_arg))
  /\ (forall chain_arg,
      outcome (App.explain_gas_fees chain_arg)
      = outcome (Agent.explain_gas_fees chain_arg))
  /\ (forall contract_type,
      outcome (App.get_smart_contract_template contract_type)
      = outcome (Agent.get_smart_contract_template contract_type))
  /\ (forall amount from_unit to_unit,
      outcome (App.convert_crypto_units amount from_unit to_unit)
      = outcome (Agent.convert_crypto_units amount from_unit to_unit)
      /\ (outcome (App.convert_crypto_units amount from_unit to_unit)
          = Some Success ->
          App.convert_crypto_units amount from_unit to_unit
          = Agent.convert_crypto_units amount from_unit to_unit)).
Proof.
  repeat split.
  - exact agree_blockchain_info.
  - exact agree_validate.
  - exact agree_gas.
  - exact agree_template.
  - apply agree_convert.
  - apply agree_convert.
Qed.

(** ** Rounding

    The relative error of one multiplication or division of binary64
    numbers, from the specification of the operations, and of the four
    operations of a conversion and its way back. *)

Module Rounding.
Import SpecFloat Binary64.

#[local] Open Scope Z_scope.

(** *** Digits *)

Lemma digits2_pos_bounds (p : positive) :
  2 ^ (Zpos (digits2_pos p) - 1) <= Zpos p < 2 ^ Zpos (digits2_pos p).
Proof.
  induction p as [p IH|p IH|]; cbn [digits2_pos].
  - rewrite Pos2Z.inj_succ.
    replace (Z.succ (Zpos (digits2_pos p)) - 1) with (Z.succ (Zpos (digits2_pos p) - 1)) by lia.
    rewrite !Z.pow_succ_r by lia. lia.
  - rewrite Pos2Z.inj_succ.
    replace (Z.succ (Zpos (digits2_pos p)) - 1) with (Z.succ (Zpos (digits2_pos p) - 1)) by lia.
    rewrite !Z.pow_succ_r by lia. lia.
  - simpl. lia.
Qed.

Lemma digits2_pos_unique (p : positive) (d : Z) :
  2 ^ (d - 1) <= Zpos p < 2 ^ d -> Zpos (digits2_pos p) = d.
Proof.
  intros [Hlo Hhi]. pose proof (digits2_pos_bounds p) as [Blo Bhi].
  set (k := Zpos (digits2_pos p)) in *.
  assert (Hk : 0 < k) by (subst k; lia).
  destruct (Z.lt_trichotomy k d) as [Hlt|[Heq|Hgt]]; [|exact Heq|].
  - exfalso. assert (2 ^ k <= 2 ^ (d - 1)) by (apply Z.pow_le_mono_r; lia). lia.
  - exfalso.
    destruct (Z.le_gt_cases 0 d) as [Hd|Hd].
    + assert (2 ^ d <= 2 ^ (k - 1)) by (apply Z.pow_le_mono_r; lia). lia.
    + rewrite (Z.pow_neg_r 2 d) in Hhi by lia. lia.
Qed.

(** *** Iteration *)

Lemma iter_pos_comm {A : Type} (f : A -> A) (p : positive) : forall x,
  iter_pos f p (f x) = f (iter_pos f p x).
Proof.
  induction p as [p IH|p IH|]; intros x; cbn [iter_pos].
  - now rewrite !IH.
  - now rewrite !IH.
  - reflexivity.
Qed.

Lemma iter_twice {A : Type} (f : A -> A) (n : nat) (x : A) :
  Nat.iter (n + n) f x = Nat.iter n f (Nat.iter n f x).
Proof. apply Nat.iter_add. Qed.

Lemma iter_pos_nat {A : Type} (f : A -> A) (p : positive) : forall x,
  iter_pos f p x = Nat.iter (Pos.to_nat p) f x.
Proof.
  induction p as [p IH|p IH|]; intros x; cbn [iter_pos].
  - rewrite !iter_pos_comm, !IH, <- iter_twice.
    replace (Pos.to_nat p~1) with (S (Pos.to_nat p + Pos.to_nat p)) by lia.
    reflexivity.
  - rewrite !IH, <- iter_twice.
    replace (Pos.to_nat p~0) with (Pos.to_nat p + Pos.to_nat p)%nat by lia.
    reflexivity.
  - reflexivity.
Qed.

(** *** Locations *)

#[local] Open Scope R_scope.


(** [x] lies in [[m, m+1)] at the place the location says. *)

Lemma loc_of_record_of_loc m l :
  loc_of_shr_record (shr_record_of_loc m l) = l
  /\ shr_m (shr_record_of_loc m l) = m.
Proof. destruct l as [|[]]; split; reflexivity. Qed.

Lemma shr_1_locates (x : R) (mrs : shr_record) :
  (0 <= shr_m mrs)%Z ->
  locates x (shr_m mrs) (loc_of_shr_record mrs) ->
  (0 <= shr_m (shr_1 mrs))%Z
  /\ locates (x / 2) (shr_m (shr_1 mrs)) (loc_of_shr_record (shr_1 mrs)).
Proof.
  destruct mrs as [m r s]. cbn [shr_m]. intros Hm H.
  destruct m as [|p|p]; [| |lia].
  - destruct r, s; cbn in *; split; try lia; lra.
  - destruct p as [p|p|].
    + assert (E : IZR (Zpos p~1) = 2 * IZR (Zpos p) + 1)
        by (rewrite Pos2Z.inj_xI, plus_IZR, mult_IZR; reflexivity).
      destruct r, s; cbn [shr_1 shr_m loc_of_shr_record orb locates] in *;
        rewrite E in H; split; try lia; lra.
    + assert (E : IZR (Zpos p~0) = 2 * IZR (Zpos p))
        by (rewrite Pos2Z.inj_xO, mult_IZR; reflexivity).
      destruct r, s; cbn [shr_1 shr_m loc_of_shr_record orb locates] in *;
        rewrite E in H; split; try lia; lra.
    + destruct r, s; cbn in *; split; try lia; lra.
Qed.

Lemma shr_iter_locates (n : nat) : forall (x : R) (mrs : shr_record),
  (0 <= shr_m mrs)%Z ->
  locates x (shr_m mrs) (loc_of_shr_record mrs) ->
  (0 <= shr_m (Nat.iter n shr_1 mrs))%Z
  /\ locates (x / 2 ^ n) (shr_m (Nat.iter n shr_1 mrs))
       (loc_of_shr_record (Nat.iter n shr_1 mrs)).
Proof.
  induction n as [|n IH]; intros x mrs Hm H.
  - cbn [Nat.iter pow]. replace (x / 1) with x by lra. auto.
  - cbn [Nat.iter pow]. destruct (IH x mrs Hm H) as [Hm' H'].
    destruct (shr_1_locates _ _ Hm' H') as [Hm'' H''].
    split; [exact Hm''|].
    replace (x / (2 * 2 ^ n)) with (x / 2 ^ n / 2); [exact H''|].
    field. apply pow_nonzero. lra.
Qed.

Lemma round_nearest_even_error (x : R) (m : Z) (l : location) :
  locates x m l ->
  Rabs (IZR (round_nearest_even m l) - x) <= / 2
  /\ (round_nearest_even m l = m \/ round_nearest_even m l = (m + 1)%Z).
Proof.
  intros H. destruct l as [|[]]; cbn [round_nearest_even locates] in *.
  - split; [|auto]. subst x. rewrite Rminus_diag, Rabs_R0. lra.
  - destruct (Z.even m).
    + split; [|auto]. subst x. rewrite Rabs_left; lra.
    + split; [|auto]. subst x. rewrite plus_IZR. rewrite Rabs_right; lra.
  - split; [|auto]. rewrite Rabs_left; lra.
  - split; [|auto]. rewrite plus_IZR. rewrite Rabs_right; lra.
Qed.

(** *** Powers of two *)


Lemma bpow_pos e : 0 < bpow e.
Proof. apply powerRZ_lt. lra. Qed.

Lemma bpow_add a b : bpow (a + b) = bpow a * bpow b.
Proof. apply powerRZ_add. lra. Qed.

Lemma bpow_nat (n : nat) : bpow (Z.of_nat n) = 2 ^ n.
Proof. unfold bpow. now rewrite <- pow_powerRZ. Qed.

Lemma bpow_IZR (k : Z) : (0 <= k)%Z -> bpow k = IZR (2 ^ k).
Proof.
  intros Hk. rewrite <- (Z2Nat.id k Hk) at 1. rewrite bpow_nat.
  rewrite <- (Z2Nat.id k Hk) at 2. now rewrite pow_IZR.
Qed.

Lemma bpow_le a b : (a <= b)%Z -> bpow a <= bpow b.
Proof.
  intros H. replace b with (a + (b - a))%Z by lia. rewrite bpow_add.
  rewrite (bpow_IZR (b - a)) by lia.
  assert (1 <= IZR (2 ^ (b - a))).
  { apply IZR_le. assert (0 < 2 ^ (b - a))%Z by (apply Z.pow_pos_nonneg; lia). lia. }
  pose proof (bpow_pos a). nra.
Qed.

(** *** Shifting and rounding to 53 bits *)

Lemma locates_bounds x m l : locates x m l -> IZR m <= x < IZR m + 1.
Proof. destruct l as [|[]]; cbn; lra. Qed.

Lemma shr_nat mrs e n :
  (0 <= n)%Z -> shr mrs e n = (Nat.iter (Z.to_nat n) shr_1 mrs, (e + n)%Z).
Proof.
  intros Hn. destruct n as [|p|p]; [| |lia].
  - cbn. now rewrite Z.add_0_r.
  - cbn [shr]. now rewrite iter_pos_nat.
Qed.

Lemma fexp_normal e : (-1021 <= e)%Z -> fexp prec emax e = (e - 53)%Z.
Proof. intros H. unfold fexp, SpecFloat.emin, prec, emax. lia. Qed.

Lemma round_aux_normal (s : bool) (p : positive) (ex : Z) (lx : location) (x : R) :
  let d := Zpos (digits2_pos p) in
  locates x (Zpos p) lx ->
  (53 <= d)%Z -> (-1074 <= ex + d - 53)%Z -> (ex + d - 52 <= 971)%Z ->
  exists m e,
    binary_round_aux prec emax s (Zpos p) ex lx = S754_finite s m e
    /\ (2 ^ 52 <= Zpos m < 2 ^ 53)%Z
    /\ (ex + d - 53 <= e <= ex + d - 52)%Z
    /\ Rabs (IZR (Zpos m) * bpow e - x * bpow ex) <= x * bpow ex * bpow (-53).
Proof.
  intros d Hloc Hd Hlo Hhi.
  pose proof (digits2_pos_bounds p) as Hdig. fold d in Hdig.
  set (n := (d - 53)%Z). set (N := Z.to_nat n).
  assert (Hn : (0 <= n)%Z) by (subst n; lia).
  (* the first shift *)
  unfold binary_round_aux, shr_fexp.
  cbn [Zdigits2]. fold d.
  rewrite fexp_normal by lia.
  replace (d + ex - 53 - ex)%Z with n by (subst n; lia).
  rewrite shr_nat by exact Hn. fold N.
  destruct (loc_of_record_of_loc (Zpos p) lx) as [El Em].
  assert (H0 : (0 <= shr_m (shr_record_of_loc (Zpos p) lx))%Z) by (rewrite Em; lia).
  assert (Hloc0 : locates x (shr_m (shr_record_of_loc (Zpos p) lx))
                    (loc_of_shr_record (shr_record_of_loc (Zpos p) lx)))
    by (rewrite El, Em; exact Hloc).
  destruct (shr_iter_locates N x _ H0 Hloc0) as [Hm1 Hloc1].
  set (mrs1 := Nat.iter N shr_1 (shr_record_of_loc (Zpos p) lx)) in *.
  set (m1 := shr_m mrs1) in *.
  (* the scaled value lies in [2^52, 2^53) *)
  assert (HN : 2 ^ N = IZR (2 ^ n)).
  { rewrite <- bpow_nat. subst N. rewrite Z2Nat.id by exact Hn. now apply bpow_IZR. }
  assert (Hpn : (0 < 2 ^ n)%Z) by (apply Z.pow_pos_nonneg; lia).
  assert (H2n : (2 ^ (d - 1) = 2 ^ 52 * 2 ^ n)%Z).
  { rewrite <- Z.pow_add_r by lia. f_equal. subst n. lia. }
  assert (H2d : (2 ^ d = 2 ^ 53 * 2 ^ n)%Z).
  { rewrite <- Z.pow_add_r by lia. f_equal. subst n. lia. }
  pose proof (locates_bounds _ _ _ Hloc) as [Hxlo Hxhi].
  assert (Hx52 : IZR (2 ^ 52) * 2 ^ N <= x).
  { rewrite HN, <- mult_IZR, <- H2n. apply Rle_trans with (IZR (Zpos p)); [|exact Hxlo].
    apply IZR_le. lia. }
  assert (Hx53 : x < IZR (2 ^ 53) * 2 ^ N).
  { rewrite HN, <- mult_IZR, <- H2d. apply Rlt_le_trans with (IZR (Zpos p) + 1); [exact Hxhi|].
    rewrite <- plus_IZR. apply IZR_le. lia. }
  assert (HNpos : 0 < 2 ^ N) by (apply pow_lt; lra).
  set (y := x / 2 ^ N) in *.
  assert (Hxy : x = y * 2 ^ N) by (subst y; field; lra).
  assert (Hy52 : IZR (2 ^ 52) <= y) by (rewrite Hxy in Hx52; nra).
  assert (Hy53 : y < IZR (2 ^ 53)) by (rewrite Hxy in Hx53; nra).
  pose proof (locates_bounds _ _ _ Hloc1) as [Hm1lo Hm1hi].
  assert (Bm1 : (2 ^ 52 <= m1 < 2 ^ 53)%Z).
  { split.
    - assert (IZR (2 ^ 52) < IZR (m1 + 1)) by (rewrite plus_IZR; lra).
      apply lt_IZR in H. lia.
    - apply lt_IZR. lra. }
  (* rounding *)
  destruct (round_nearest_even_error _ _ _ Hloc1) as [Herr Hm2].
  set (m2 := round_nearest_even m1 (loc_of_shr_record mrs1)) in *.
  assert (Bm2 : (2 ^ 52 <= m2 <= 2 ^ 53)%Z) by lia.
  (* the value and its error, whatever the second shift does *)
  assert (Hval : Rabs (IZR m2 * bpow (ex + n) - x * bpow ex)
                 <= x * bpow ex * bpow (-53)).
  { rewrite bpow_add. rewrite (bpow_IZR n Hn), <- HN.
    pose proof (bpow_pos ex) as Hex.
    replace (IZR m2 * (bpow ex * 2 ^ N) - x * bpow ex)
      with ((IZR m2 - y) * (bpow ex * 2 ^ N)) by (rewrite Hxy; ring).
    assert (Hc : 0 < bpow ex * 2 ^ N) by (apply Rmult_lt_0_compat; assumption).
    rewrite Rabs_mult, (Rabs_right (bpow ex * 2 ^ N)) by lra.
    assert (E53 : bpow (-53) = / IZR (2 ^ 53)).
    { unfold bpow. cbn [powerRZ]. rewrite pow_IZR. reflexivity. }
    rewrite E53, Hxy.
    assert (P52 : IZR (2 ^ 52) = IZR (2 ^ 53) / 2).
    { change (2 ^ 53)%Z with (2 * 2 ^ 52)%Z. rewrite mult_IZR. lra. }
    assert (P53 : 0 < IZR (2 ^ 53)) by (apply IZR_lt; reflexivity).
    apply Rle_trans with (/ 2 * (bpow ex * 2 ^ N));
      [apply Rmult_le_compat_r; [lra | exact Herr]|].
    replace (y * 2 ^ N * bpow ex * / IZR (2 ^ 53))
      with (y * / IZR (2 ^ 53) * (bpow ex * 2 ^ N)) by ring.
    apply Rmult_le_compat_r; [lra|].
    apply Rmult_le_reg_r with (IZR (2 ^ 53)); [exact P53|].
    rewrite Rmult_assoc, Rinv_l by lra. lra. }
  (* the second shift *)
  destruct (Z.eq_dec m2 (2 ^ 53)) as [Ecarry|Enc].
  - exists (2 ^ 52)%positive, (ex + n + 1)%Z.
    rewrite Ecarry. cbn [Zdigits2 digits2_pos Pos.succ shr_record_of_loc].
    change (Zpos (digits2_pos (2 ^ 53)%positive)) with 54%Z.
    change (2 ^ 53)%Z with (Zpos (2 ^ 53)%positive).
    cbn [Zdigits2]. change (Zpos (digits2_pos (2 ^ 53)%positive)) with 54%Z.
    rewrite fexp_normal by lia.
    replace (54 + (ex + n) - 53 - (ex + n))%Z with 1%Z by lia.
    cbn [shr iter_pos shr_1 shr_m].
    replace (ex + n + 1 <=? emax - prec)%Z with true
      by (symmetry; apply Z.leb_le; unfold emax, prec; subst n; lia).
    split; [reflexivity|]. split; [lia|]. split; [subst n; lia|].
    rewrite Ecarry in Hval.
    replace (IZR (Zpos (2 ^ 52)) * bpow (ex + n + 1))
      with (IZR (2 ^ 53) * bpow (ex + n)); [exact Hval|].
    rewrite (bpow_add (ex + n) 1).
    change (2 ^ 53)%Z with (2 ^ 52 * 2)%Z. rewrite mult_IZR.
    change (bpow 1) with (2 * 1). change (Zpos (2 ^ 52)) with (2 ^ 52)%Z. ring.
  - assert (Bm2' : (2 ^ 52 <= m2 < 2 ^ 53)%Z) by lia.
    destruct m2 as [|q|q] eqn:Eq; [lia| |lia].
    exists q, (ex + n)%Z.
    cbn [Zdigits2 shr_record_of_loc].
    rewrite (digits2_pos_unique q 53) by (change (53 - 1)%Z with 52%Z; lia).
    rewrite fexp_normal by (subst n; lia).
    replace (53 + (ex + n) - 53 - (ex + n))%Z with 0%Z by lia.
    cbn [shr shr_m].
    replace (ex + n <=? emax - prec)%Z with true
      by (symmetry; apply Z.leb_le; unfold emax, prec; subst n; lia).
    split; [reflexivity|]. split; [lia|]. split; [subst n; lia|]. exact Hval.
Qed.

(** *** Normal numbers *)



(** A finite number with a full 53-bit mantissa and exponent [e]. *)

Lemma sign_xorb a b : sign (xorb a b) = sign a * sign b.
Proof. destruct a, b; cbn; lra. Qed.

Lemma Rabs_sign s r : Rabs (sign s * r) = Rabs r.
Proof.
  destruct s; cbn.
  - replace (-1 * r) with (- r) by ring. apply Rabs_Ropp.
  - now rewrite Rmult_1_l.
Qed.

Lemma digits_between (p : positive) (lo hi : Z) :
  (0 <= lo)%Z -> (2 ^ lo <= Zpos p < 2 ^ hi)%Z ->
  (lo + 1 <= Zpos (digits2_pos p) <= hi)%Z.
Proof.
  intros Hlo [H1 H2]. pose proof (digits2_pos_bounds p) as [B1 B2].
  set (d := Zpos (digits2_pos p)) in *.
  assert (0 < d)%Z by (subst d; lia).
  split.
  - destruct (Z.le_gt_cases (lo + 1) d) as [|Hc]; [assumption|exfalso].
    assert (2 ^ d <= 2 ^ lo)%Z by (apply Z.pow_le_mono_r; lia). lia.
  - destruct (Z.le_gt_cases d hi) as [|Hc]; [assumption|exfalso].
    destruct (Z.le_gt_cases 0 hi) as [Hh|Hh].
    + assert (2 ^ hi <= 2 ^ (d - 1))%Z by (apply Z.pow_le_mono_r; lia). lia.
    + rewrite (Z.pow_neg_r 2 hi) in H2 by lia. lia.
Qed.

Lemma SFmul_normal (x y : spec_float) (ex ey : Z) :
  normal x ex -> normal y ey ->
  (-1074 <= ex + ey + 52)%Z -> (ex + ey + 54 <= 971)%Z ->
  exists e,
    normal (SFmul prec emax x y) e
    /\ (ex + ey + 52 <= e <= ex + ey + 54)%Z
    /\ Rabs (SF2R (SFmul prec emax x y) - SF2R x * SF2R y)
       <= Rabs (SF2R x * SF2R y) * bpow (-53).
Proof.
  intros (sx & mx & -> & Bx) (sy & my & -> & By) Hlo Hhi.
  cbn [SFmul].
  assert (BM : (2 ^ 104 <= Zpos (mx * my) < 2 ^ 106)%Z).
  { rewrite Pos2Z.inj_mul.
    change (2 ^ 104)%Z with (2 ^ 52 * 2 ^ 52)%Z.
    change (2 ^ 106)%Z with (2 ^ 53 * 2 ^ 53)%Z.
    assert (0 < 2 ^ 52)%Z by reflexivity. split; nia. }
  pose proof (digits_between _ 104 106 ltac:(lia) BM) as Hd.
  destruct (round_aux_normal (xorb sx sy) (mx * my) (ex + ey) loc_Exact
              (IZR (Zpos (mx * my))) eq_refl) as (m & e & Er & Bm & Be & Herr);
    try lia.
  exists e. rewrite Er. split; [exists (xorb sx sy), m; auto|]. split; [lia|].
  cbn [SF2R]. rewrite sign_xorb.
  replace (sign sx * sign sy * IZR (Zpos m) * bpow e
           - sign sx * IZR (Zpos mx) * bpow ex * (sign sy * IZR (Zpos my) * bpow ey))
    with (sign sx * (sign sy * (IZR (Zpos m) * bpow e
                                - IZR (Zpos (mx * my)) * bpow (ex + ey))))
    by (rewrite Pos2Z.inj_mul, mult_IZR, bpow_add; ring).
  replace (sign sx * IZR (Zpos mx) * bpow ex * (sign sy * IZR (Zpos my) * bpow ey))
    with (sign sx * (sign sy * (IZR (Zpos (mx * my)) * bpow (ex + ey))))
    by (rewrite Pos2Z.inj_mul, mult_IZR, bpow_add; ring).
  rewrite !Rabs_sign.
  rewrite (Rabs_right (IZR (Zpos (mx * my)) * bpow (ex + ey))); [exact Herr|].
  apply Rle_ge. apply Rmult_le_pos; [apply IZR_le; lia | apply Rlt_le, bpow_pos].
Qed.

(** The location that the division hands to the rounding. *)
Lemma new_location_locates (m2 q r : Z) :
  (0 < m2)%Z -> (0 <= r < m2)%Z ->
  locates (IZR q + IZR r / IZR m2) q (new_location m2 r).
Proof.
  intros Hm Hr.
  assert (Hm' : 0 < IZR m2) by (apply IZR_lt; lia).
  assert (Hr0 : 0 <= IZR r) by (apply IZR_le; lia).
  assert (Half : forall c : R, (c < / 2 <-> 2 * (c * IZR m2) < IZR m2)
                            /\ (c = / 2 <-> 2 * (c * IZR m2) = IZR m2)
                            /\ (/ 2 < c <-> IZR m2 < 2 * (c * IZR m2))).
  { intros c. repeat split; intros; nra. }
  set (c := IZR r / IZR m2).
  assert (Hc : c * IZR m2 = IZR r) by (subst c; field; lra).
  destruct (Half c) as (HL & HE & HG). rewrite Hc in HL, HE, HG.
  assert (Hc1 : c < 1).
  { apply Rmult_lt_reg_r with (IZR m2); [exact Hm'|]. rewrite Hc, Rmult_1_l.
    apply IZR_lt. lia. }
  unfold new_location, new_location_even, new_location_odd.
  destruct (Z.eqb_spec r 0) as [->|Hr'].
  - assert (c = 0) by (subst c; unfold Rdiv; ring).
    destruct (Z.even m2); rewrite Z.eqb_refl; cbn [locates]; lra.
  - assert (Hcpos : 0 < c).
    { apply Rmult_lt_reg_r with (IZR m2); [exact Hm'|]. rewrite Hc, Rmult_0_l.
      apply IZR_lt. lia. }
    assert (Hrb : (r =? 0)%Z = false) by (now apply Z.eqb_neq).
    destruct (Z.even m2) eqn:Heven; rewrite Hrb.
    + destruct (Z.compare_spec (2 * r) m2) as [E|E|E]; cbv iota; cbn [locates].
      * assert (c = / 2) by (apply HE; rewrite <- E, mult_IZR; lra). lra.
      * assert (c < / 2) by (apply HL; rewrite <- mult_IZR; apply IZR_lt; lia). lra.
      * assert (/ 2 < c) by (apply HG; rewrite <- mult_IZR; apply IZR_lt; lia). lra.
    + assert (Hodd : (2 * r <> m2)%Z).
      { intros E. rewrite <- E, Z.even_mul in Heven. discriminate. }
      destruct (Z.compare_spec (2 * r + 1) m2) as [E|E|E]; cbv iota; cbn [locates].
      * assert (c < / 2) by (apply HL; rewrite <- mult_IZR; apply IZR_lt; lia). lra.
      * assert (c < / 2) by (apply HL; rewrite <- mult_IZR; apply IZR_lt; lia). lra.
      * assert (/ 2 < c) by (apply HG; rewrite <- mult_IZR; apply IZR_lt; lia). lra.
Qed.

Lemma SFdiv_normal (x y : spec_float) (ex ey : Z) :
  normal x ex -> normal y ey ->
  (-1074 <= ex - ey - 53)%Z -> (ex - ey - 51 <= 971)%Z ->
  exists e,
    normal (SFdiv prec emax x y) e
    /\ (ex - ey - 53 <= e <= ex - ey - 51)%Z
    /\ Rabs (SF2R (SFdiv prec emax x y) - SF2R x / SF2R y)
       <= Rabs (SF2R x / SF2R y) * bpow (-53).
Proof.
  intros (sx & mx & -> & Bx) (sy & my & -> & By) Hlo Hhi.
  cbn [SFdiv]. unfold SFdiv_core_binary. cbn [Zdigits2].
  rewrite (digits2_pos_unique mx 53), (digits2_pos_unique my 53)
    by (change (53 - 1)%Z with 52%Z; lia).
  replace (53 + ex - (53 + ey))%Z with (ex - ey)%Z by lia.
  unfold fexp, SpecFloat.emin, prec, emax.
  replace (Z.min (Z.max (ex - ey - 53) (3 - 1024 - 53)) (ex - ey))
    with (ex - ey - 53)%Z by lia.
  replace (ex - ey - (ex - ey - 53))%Z with 53%Z by lia.
  rewrite Z.shiftl_mul_pow2 by lia.
  pose proof (Z_div_mod (Zpos mx * 2 ^ 53) (Zpos my) ltac:(lia)) as Hdm.
  destruct (Z.div_eucl (Zpos mx * 2 ^ 53) (Zpos my)) as [q r].
  destruct Hdm as [Hq Hr].
  assert (Bq : (2 ^ 52 <= q < 2 ^ 54)%Z).
  { change (2 ^ 52)%Z with 4503599627370496%Z in *.
    change (2 ^ 53)%Z with 9007199254740992%Z in *.
    change (2 ^ 54)%Z with 18014398509481984%Z. split; nia. }
  destruct q as [|pq|pq]; [lia| |lia].
  pose proof (digits_between pq 52 54 ltac:(lia) Bq) as Hd.
  assert (Hmy : 0 < IZR (Zpos my)) by (apply IZR_lt; lia).
  assert (Hx : IZR (Zpos pq) + IZR r / IZR (Zpos my)
               = IZR (Zpos mx) * IZR (2 ^ 53) / IZR (Zpos my)).
  { rewrite <- mult_IZR, Hq, plus_IZR, mult_IZR. field. lra. }
  pose proof (new_location_locates (Zpos my) (Zpos pq) r ltac:(lia) Hr) as Hloc.
  rewrite Hx in Hloc.
  destruct (round_aux_normal (xorb sx sy) pq (ex - ey - 53) _ _ Hloc)
    as (m & e & Er & Bm & Be & Herr); try lia.
  unfold prec, emax in Er. rewrite Er.
  exists e. split; [exists (xorb sx sy), m; auto|]. split; [lia|].
  cbn [SF2R]. rewrite sign_xorb.
  assert (Hey : 0 < bpow ey) by apply bpow_pos.
  assert (Hsy : sign sy <> 0) by (destruct sy; cbn; lra).
  assert (Hss : / sign sy = sign sy) by (destruct sy; cbn; lra).
  assert (E53 : bpow (ex - ey - 53) * IZR (2 ^ 53) = bpow ex / bpow ey).
  { replace (ex - ey - 53)%Z with (ex + (- ey) + (- 53))%Z by lia.
    rewrite !bpow_add, <- (bpow_IZR 53) by lia.
    replace (bpow ex * bpow (- ey) * bpow (-53) * bpow 53)
      with (bpow ex * bpow (- ey) * (bpow (-53) * bpow 53)) by ring.
    rewrite <- (bpow_add (-53) 53). change (-53 + 53)%Z with 0%Z.
    change (bpow 0) with 1. rewrite Rmult_1_r.
    assert (bpow (- ey) * bpow ey = 1).
    { rewrite <- bpow_add. replace (- ey + ey)%Z with 0%Z by lia. reflexivity. }
    field_simplify_eq; [|lra]. rewrite Rmult_assoc, H. ring. }
  set (X := IZR (Zpos mx) * IZR (2 ^ 53) / IZR (Zpos my) * bpow (ex - ey - 53)) in *.
  assert (EX : sign sx * IZR (Zpos mx) * bpow ex / (sign sy * IZR (Zpos my) * bpow ey)
               = sign sx * (sign sy * X)).
  { subst X. unfold Rdiv. rewrite !Rinv_mult, Hss.
    replace (sign sx * (sign sy *
               (IZR (Zpos mx) * IZR (2 ^ 53) * / IZR (Zpos my) * bpow (ex - ey - 53))))
      with (sign sx * sign sy * IZR (Zpos mx) * / IZR (Zpos my)
            * (bpow (ex - ey - 53) * IZR (2 ^ 53))) by ring.
    rewrite E53. unfold Rdiv. ring. }
  rewrite EX.
  replace (sign sx * sign sy * IZR (Zpos m) * bpow e - sign sx * (sign sy * X))
    with (sign sx * (sign sy * (IZR (Zpos m) * bpow e - X))) by ring.
  rewrite !Rabs_sign.
  rewrite (Rabs_right X); [exact Herr|].
  apply Rle_ge. subst X. pose proof (bpow_pos (ex - ey - 53)).
  assert (0 <= IZR (Zpos mx) * IZR (2 ^ 53) / IZR (Zpos my)).
  { apply Rmult_le_pos; [apply Rmult_le_pos; apply IZR_le; lia|].
    apply Rlt_le, Rinv_0_lt_compat, Hmy. }
  nra.
Qed.

(** *** Relative errors *)


Lemma rel_step (eps t x y c : R) :
  0 <= eps ->
  Rabs (x - t) <= eps * Rabs t ->
  Rabs (y - x * c) <= Rabs (x * c) * u53 ->
  Rabs (y - t * c) <= (eps + u53 + eps * u53) * Rabs (t * c).
Proof.
  intros Heps Hx Hy.
  assert (Hu : 0 < u53) by apply bpow_pos.
  assert (H1 : Rabs (x * c - t * c) <= eps * Rabs (t * c)).
  { replace (x * c - t * c) with ((x - t) * c) by ring.
    rewrite !Rabs_mult. pose proof (Rabs_pos c). nra. }
  assert (H2 : Rabs (x * c) <= (1 + eps) * Rabs (t * c)).
  { replace (x * c) with (t * c + (x * c - t * c)) at 1 by ring.
    eapply Rle_trans; [apply Rabs_triang|]. lra. }
  replace (y - t * c) with ((y - x * c) + (x * c - t * c)) by ring.
  eapply Rle_trans; [apply Rabs_triang|].
  pose proof (Rabs_pos (t * c)). nra.
Qed.


Lemma four_roundings :
  let e1 := 0 + u53 + 0 * u53 in
  let e2 := e1 + u53 + e1 * u53 in
  let e3 := e2 + u53 + e2 * u53 in
  let e4 := e3 + u53 + e3 * u53 in
  0 <= e1 /\ 0 <= e2 /\ 0 <= e3 /\ e4 <= tolerance.
Proof.
  assert (Hu : 0 < u53) by apply bpow_pos.
  assert (Hv : u53 <= / 10 ^ 15 / 5).
  { unfold u53, bpow. cbn [powerRZ]. rewrite pow_IZR.
    change (2 ^ Z.of_nat (Pos.to_nat 53))%Z with 9007199254740992%Z.
    apply Rmult_le_reg_r with (IZR 9007199254740992); [lra|].
    rewrite Rinv_l by lra. lra. }
  cbv zeta. unfold tolerance in *.
  assert (Ht : / 10 ^ 15 <= 1).
  { rewrite <- Rinv_1. apply Rinv_le_contravar; lra. }
  assert (0 < / 10 ^ 15) by (apply Rinv_0_lt_compat; lra).
  repeat split; try nra.
Qed.

(** *** A product and a quotient taken back *)

Lemma SF2R_normal_nonzero x e : normal x e -> SF2R x <> 0.
Proof.
  intros (s & m & -> & B). cbn [SF2R]. pose proof (bpow_pos e).
  assert (0 < IZR (Zpos m)) by (apply IZR_lt; lia).
  destruct s; cbn [sign]; nra.
Qed.

Lemma round_trip_normal (A K1 K2 : spec_float) (eA e1 e2 : Z) :
  normal A eA -> normal K1 e1 -> normal K2 e2 ->
  (-949 <= eA <= 844)%Z -> (-52 <= e1 <= 7)%Z -> (-52 <= e2 <= 7)%Z ->
  let there := SFdiv prec emax (SFmul prec emax A K1) K2 in
  let back := SFdiv prec emax (SFmul prec emax there K2) K1 in
  exists e,
    normal back e
    /\ Rabs (SF2R back - SF2R A) <= tolerance * Rabs (SF2R A).
Proof.
  intros HA HK1 HK2 BA B1 B2 there back.
  destruct (SFmul_normal A K1 eA e1 HA HK1) as (x1e & N1 & Bx1 & E1); try lia.
  destruct (SFdiv_normal _ K2 x1e e2 N1 HK2) as (x2e & N2 & Bx2 & E2); try lia.
  fold there in N2, E2.
  destruct (SFmul_normal there K2 x2e e2 N2 HK2) as (x3e & N3 & Bx3 & E3); try lia.
  destruct (SFdiv_normal _ K1 x3e e1 N3 HK1) as (x4e & N4 & Bx4 & E4); try lia.
  fold back in N4, E4.
  exists x4e. split; [exact N4|].
  pose proof (SF2R_normal_nonzero _ _ HK1) as Hc1.
  pose proof (SF2R_normal_nonzero _ _ HK2) as Hc2.
  set (a := SF2R A) in *. set (c1 := SF2R K1) in *. set (c2 := SF2R K2) in *.
  destruct four_roundings as (P1 & P2 & P3 & P4).
  assert (S0 : Rabs (a - a) <= 0 * Rabs a)
    by (rewrite Rminus_diag, Rabs_R0; lra).
  pose proof (rel_step 0 a a _ c1 (Rle_refl 0) S0 E1) as S1.
  unfold Rdiv in E2.
  pose proof (rel_step _ _ _ _ (/ c2) P1 S1 E2) as S2.
  pose proof (rel_step _ _ _ _ c2 P2 S2 E3) as S3.
  unfold Rdiv in E4.
  pose proof (rel_step _ _ _ _ (/ c1) P3 S3 E4) as S4.
  replace (a * c1 * / c2 * c2 * / c1) with a in S4 by (field; auto).
  eapply Rle_trans; [exact S4|].
  apply Rmult_le_compat_r; [apply Rabs_pos | exact P4].
Qed.

(** *** Binary64 numbers of the kernel *)







Lemma normal_of_valid s m e :
  SpecFloat.valid_binary prec emax (S754_finite s m e) = true -> (-1074 < e)%Z ->
  normal (S754_finite s m e) e.
Proof.
  cbn [SpecFloat.valid_binary]. unfold bounded, canonical_mantissa. intros H He.
  apply andb_prop in H. destruct H as [H _]. apply Z.eqb_eq in H.
  unfold fexp, SpecFloat.emin, prec, emax in H.
  assert (Hd : Zpos (digits2_pos m) = 53%Z) by lia.
  pose proof (digits2_pos_bounds m) as B. rewrite Hd in B.
  exists s, m. split; [reflexivity|]. exact B.
Qed.

Lemma SFleb_abs_lower X mc ec :
  SFleb (S754_finite false mc ec) (SFabs X) = true ->
  match X with
  | S754_finite _ _ e => (ec <= e)%Z
  | S754_infinity _ => True
  | _ => False
  end.
Proof.
  destruct X as [s|s| |s m e]; cbn; try discriminate; try trivial.
  unfold SFleb. cbn. destruct (Z.compare_spec ec e); first [lia | discriminate].
Qed.

Lemma SFleb_abs_upper X mc ec :
  SFleb (SFabs X) (S754_finite false mc ec) = true ->
  match X with
  | S754_finite _ _ e => (e <= ec)%Z
  | S754_zero _ => True
  | _ => False
  end.
Proof.
  destruct X as [s|s| |s m e]; cbn; try discriminate; try trivial.
  unfold SFleb. cbn. destruct (Z.compare_spec e ec); first [lia | discriminate].
Qed.

Lemma SFeqb_zero X : SFeqb X (S754_zero false) = true -> exists s, X = S754_zero s.
Proof.
  destruct X as [s|s| |s m e]; unfold SFeqb; cbn; try discriminate.
  - intros _. now exists s.
  - destruct s; discriminate.
  - destruct s; discriminate.
Qed.

Lemma amount_in_range_cases a :
  amount_in_range a = true ->
  (exists s, Prim2SF a = S754_zero s)
  \/ (exists e, normal (Prim2SF a) e /\ (-949 <= e <= 844)%Z).
Proof.
  unfold amount_in_range. rewrite FloatAxioms.eqb_spec, !FloatAxioms.leb_spec, FloatAxioms.abs_spec.
  replace (Prim2SF 0) with (S754_zero false) by (vm_compute; reflexivity).
  replace (Prim2SF amount_min)
    with (S754_finite false 4758454107128906 (-949)) by (vm_compute; reflexivity).
  replace (Prim2SF amount_max)
    with (S754_finite false 8524789415648860 844) by (vm_compute; reflexivity).
  intros H. apply orb_prop in H. destruct H as [H|H].
  - left. now apply SFeqb_zero.
  - right. apply andb_prop in H. destruct H as [Hlo Hhi].
    apply SFleb_abs_lower in Hlo. apply SFleb_abs_upper in Hhi.
    pose proof (Prim2SF_valid a) as Hv.
    destruct (Prim2SF a) as [s|s| |s m e]; try contradiction.
    exists e. split; [|lia]. apply normal_of_valid; [exact Hv | lia].
Qed.

Lemma finite_normal x e : normal (Prim2SF x) e -> finite x = true.
Proof. intros (s & m & E & _). unfold finite. now rewrite E. Qed.

Lemma round_trip_floats (a k1 k2 : float) (e1 e2 : Z) :
  amount_in_range a = true ->
  normal (Prim2SF k1) e1 -> normal (Prim2SF k2) e2 ->
  (-52 <= e1 <= 7)%Z -> (-52 <= e2 <= 7)%Z ->
  close (a * k1 / k2 * k2 / k1)%float a.
Proof.
  intros Ha H1 H2 B1 B2. unfold close, finite, F2R.
  rewrite !FloatAxioms.div_spec, !FloatAxioms.mul_spec,
    !FloatAxioms.div_spec, !FloatAxioms.mul_spec.
  unfold SF64div, SF64mul.
  destruct (amount_in_range_cases a Ha) as [[s Ez]|(eA & HA & BA)].
  - rewrite Ez. destruct H1 as (s1 & m1 & -> & _). destruct H2 as (s2 & m2 & -> & _).
    cbn. split; [reflexivity|]. rewrite Rminus_diag, Rabs_R0. lra.
  - destruct (round_trip_normal _ _ _ eA e1 e2 HA H1 H2 BA B1 B2)
      as (e & (s & m & E & Bm) & Herr).
    cbv zeta in E, Herr. rewrite E in Herr |- *. split; [reflexivity|]. exact Herr.
Qed.

End Rounding.

(** ** Round trip of a conversion *)

(** Every factor of the unit table is a normal number between 1 and
    1e18. *)
Lemma unit_factor_normal unit family k :
  has_entry unit_definitions unit (family, k) ->
  exists e, Binary64.normal (Prim2SF k) e /\ (-52 <= e <= 7)%Z.
Proof.
  intros H. unit_entry H; subst;
    (eexists; split;
     [ eexists; eexists; split; [vm_compute; reflexivity | lia] | lia ]).
Qed.

(** C4, as stated, fails at both ends of the range of binary64. 1e300 eth
    are infinitely many wei, and stay infinite on the way back; the
    smallest positive amount of wei is 0 eth, and stays 0. *)
Lemma convert_round_trip_leaves_the_range :
  output_amount (App.convert_crypto_units 1e300 "eth" "wei") = Some infinity
  /\ output_amount (App.convert_crypto_units infinity "wei" "eth") = Some infinity
  /\ Binary64.finite 1e300 = true
  /\ Binary64.finite infinity = false
  /\ output_amount (App.convert_crypto_units 0x1p-1074 "wei" "eth") = Some 0%float
  /\ output_amount (App.convert_crypto_units 0 "eth" "wei") = Some 0%float
  /\ (0x1p-1074 =? 0)%float = false.
Proof. vm_compute. repeat split. Qed.

(** C4, amended. For units of one family and an amount that is zero or
    of magnitude 1e-270 to 1e270, the conversion and the conversion of its
    output back both succeed, and the amount that comes back is finite and
    within the relative tolerance 1e-15 of the amount given. *)
Theorem convert_round_trip amount from_unit to_unit family k_from k_to :
  has_entry unit_definitions (lower from_unit) (family, k_from) ->
  has_entry unit_definitions (lower to_unit) (family, k_to) ->
  amount_in_range amount = true ->
  exists there back,
    output_amount (App.convert_crypto_units amount from_unit to_unit) = Some there
    /\ output_amount (App.convert_crypto_units there to_unit from_unit) = Some back
    /\ close back amount.
Proof.
  intros Hfrom Hto Hrange.
  destruct (unit_factor_normal _ _ _ Hfrom) as (e1 & N1 & B1).
  destruct (unit_factor_normal _ _ _ Hto) as (e2 & N2 & B2).
  exists (amount * k_from / k_to)%float.
  exists (amount * k_from / k_to * k_to / k_from)%float.
  split; [now rewrite (convert_same_family _ _ _ _ _ _ Hfrom Hto)|].
  split; [now rewrite (convert_same_family _ _ _ _ _ _ Hto Hfrom)|].
  exact (Rounding.round_trip_floats amount k_from k_to e1 e2 Hrange N1 N2 B1 B2).
Qed.

Lemma convert_round_trip_witness :
  exists there back,
    output_amount (App.convert_crypto_units 1 "eth" "gwei") = Some there
    /\ output_amount (App.convert_crypto_units there "gwei" "eth") = Some back
    /\ close back 1.
Proof.
  apply (convert_round_trip 1 "eth" "gwei" "ethereum" 1e18 1e9).
  - do 2 right. left. reflexivity.
  - right. left. reflexivity.
  - vm_compute. reflexivity.
Defined.

(** * Further properties *)

Import Reading.

(** ** What a miss suggests *)

(** Every key of the tables is its own lookup key: lowercase, no blanks. *)
Ltac each_listed H :=
  simpl in H; repeat (destruct H as [H|H]; [subst|]); try contradiction.

(** X1. On a miss [get_blockchain_info] lists chains, and each chain it lists
    is found when asked for. *)
Theorem suggested_chains_are_found chain_name chain :
  In chain (listed "available_chains" (App.get_blockchain_info chain_name)) ->
  outcome (App.get_blockchain_info chain) = Some Success.
Proof.
  unfold App.get_blockchain_info. cbv zeta.
  destruct (contains App.blockchain_data (strip (lower chain_name))) eqn:E.
  - destruct (contains_getitem _ _ E) as [v [Hv _]]. rewrite Hv.
    intros H. contradiction H.
  - intros H. each_listed H; vm_compute; reflexivity.
Qed.

Lemma suggested_chains_are_found_witness :
  outcome (App.get_blockchain_info "polygon") = Some Success.
Proof.
  apply (suggested_chains_are_found "dogecoin" "polygon").
  vm_compute. tauto.
Defined.

(** X2. On a miss [explain_gas_fees] lists chains, and each has a profile. *)
Theorem suggested_gas_chains_are_found chain_arg chain :
  In chain (listed "available_chains" (App.explain_gas_fees chain_arg)) ->
  outcome (App.explain_gas_fees (Some chain)) = Some Success.
Proof.
  unfold App.explain_gas_fees. cbv zeta.
  destruct (contains App.gas_info (lower (with_default chain_arg "ethereum"))) eqn:E.
  - destruct (contains_getitem _ _ E) as [v [Hv _]]. rewrite Hv.
    intros H. contradiction H.
  - intros H. each_listed H; vm_compute; reflexivity.
Qed.

Lemma suggested_gas_chains_are_found_witness :
  outcome (App.explain_gas_fees (Some "polygon")) = Some Success.
Proof.
  apply (suggested_gas_chains_are_found (Some "bitcoin") "polygon").
  vm_compute. tauto.
Defined.

(** X3. On a miss [get_smart_contract_template] lists template keys, and each
    names a template. *)
Theorem suggested_templates_are_found contract_type key :
  In key (listed "available_templates"
            (App.get_smart_contract_template contract_type)) ->
  outcome (App.get_smart_contract_template key) = Some Success.
Proof.
  unfold App.get_smart_contract_template. cbv zeta.
  destruct (contains App.templates (strip (lower contract_type))) eqn:E.
  - destruct (contains_getitem _ _ E) as [v [Hv _]]. rewrite Hv.
    intros H. contradiction H.
  - intros H. each_listed H; vm_compute; reflexivity.
Qed.

Lemma suggested_templates_are_found_witness :
  outcome (App.get_smart_contract_template "erc721") = Some Success.
Proof.
  apply (suggested_templates_are_found "erc1155" "erc721").
  vm_compute. tauto.
Defined.

(** X4. When the validator does not support a chain it lists those it does,
    and with each of them it judges any address. *)
Theorem suggested_validators_are_supported address chain_arg chain address' :
  In chain (listed "supported_chains"
              (App.validate_wallet_address address chain_arg)) ->
  outcome (App.validate_wallet_address address' (Some chain)) = Some Success.
Proof.
  destruct (validate_wallet_address_returns address chain_arg) as (t & Ht & _).
  destruct (contains App.validations (lower (with_default chain_arg "ethereum")))
    eqn:E.
  - key_cases E; symmetry in E;
      [ rewrite (validate_ethereum _ _ E)
      | rewrite (validate_bitcoin _ _ E)
      | rewrite (validate_solana _ _ E) ];
      intros H; contradiction H.
  - apply contains_false in E. rewrite (validate_unsupported _ _ E).
    intros H. each_listed H.
    + now rewrite (validate_ethereum address' (Some "ethereum") eq_refl).
    + now rewrite (validate_bitcoin address' (Some "bitcoin") eq_refl).
    + now rewrite (validate_solana address' (Some "solana") eq_refl).
Qed.

Lemma suggested_validators_are_supported_witness :
  outcome (App.validate_wallet_address "abc" (Some "solana")) = Some Success.
Proof.
  apply (suggested_validators_are_supported "abc" (Some "tron") "solana" "abc").
  vm_compute. tauto.
Defined.

Lemma listed_units_are_known amount from_unit to_unit unit :
  In unit (listed "available_units"
             (App.convert_crypto_units amount from_unit to_unit)) ->
  In unit known_units.
Proof.
  unfold App.convert_crypto_units. cbv zeta.
  destruct (contains App.conversions (lower from_unit)) eqn:Ef;
    [destruct (contains App.conversions (lower to_unit)) eqn:Et|].
  - key_cases Ef; key_cases Et; rewrite <- Ef, <- Et; vm_compute; tauto.
  - cbn [negb orb]. vm_compute. tauto.
  - cbn [negb orb]. vm_compute. tauto.
Qed.

(** X5. When the converter does not know a unit it lists those it does, and
    each of them converts, to itself at least, for any amount. *)
Theorem suggested_units_convert amount from_unit to_unit unit amount' :
  In unit (listed "available_units"
             (App.convert_crypto_units amount from_unit to_unit)) ->
  outcome (App.convert_crypto_units amount' unit unit) = Some Success.
Proof.
  intros H. apply listed_units_are_known in H.
  each_listed H; vm_compute; reflexivity.
Qed.

Lemma suggested_units_convert_witness :
  outcome (App.convert_crypto_units 2 "gwei" "gwei") = Some Success.
Proof.
  apply (suggested_units_convert 1 "eth" "doge" "gwei" 2).
  vm_compute. tauto.
Defined.

(** ** One tool's chains in another *)

(** X6. A chain with a gas profile is a chain [get_blockchain_info] knows,
    under the same name as given. *)
Theorem gas_chain_has_info chain :
  outcome (App.explain_gas_fees (Some chain)) = Some Success ->
  outcome (App.get_blockchain_info chain) = Some Success.
Proof.
  unfold App.explain_gas_fees, App.get_blockchain_info. cbv zeta.
  cbn [with_default].
  destruct (contains App.gas_info (lower chain)) eqn:E; [|discriminate].
  intros _. key_cases E; rewrite <- E; reflexivity.
Qed.

Lemma gas_chain_has_info_witness :
  outcome (App.get_blockchain_info "Polygon") = Some Success.
Proof. apply (gas_chain_has_info "Polygon"). reflexivity. Defined.

(** X7. A chain whose addresses the validator judges is a chain
    [get_blockchain_info] knows, under the same name as given. *)
Theorem validated_chain_has_info address chain :
  outcome (App.validate_wallet_address address (Some chain)) = Some Success ->
  outcome (App.get_blockchain_info chain) = Some Success.
Proof.
  unfold App.get_blockchain_info. cbv zeta.
  destruct (contains App.validations (lower (with_default (Some chain) "ethereum")))
    eqn:E.
  - intros _. cbn [with_default] in E. key_cases E; rewrite <- E; reflexivity.
  - apply contains_false in E. rewrite (validate_unsupported _ _ E). discriminate.
Qed.

Lemma validated_chain_has_info_witness :
  outcome (App.get_blockchain_info "BITCOIN") = Some Success.
Proof. apply (validated_chain_has_info "abc" "BITCOIN"). reflexivity. Defined.

Lemma conversion_family_supported amount from_unit to_unit family :
  blockchain_of (App.convert_crypto_units amount from_unit to_unit) = Some family ->
  In family supported_chains.
Proof.
  unfold App.convert_crypto_units. cbv zeta.
  destruct (contains App.conversions (lower from_unit)) eqn:Ef;
    [destruct (contains App.conversions (lower to_unit)) eqn:Et|].
  - key_cases Ef; key_cases Et; rewrite <- Ef, <- Et; vm_compute;
      intros H; first [discriminate H | injection H as <-; tauto].
  - cbn [negb orb]. discriminate.
  - cbn [negb orb]. discriminate.
Qed.

(** X8. The family a conversion reports is a chain that [get_blockchain_info]
    knows and whose addresses the validator judges. *)
Theorem conversion_family_is_known amount from_unit to_unit family address :
  blockchain_of (App.convert_crypto_units amount from_unit to_unit) = Some family ->
  outcome (App.get_blockchain_info family) = Some Success
  /\ outcome (App.validate_wallet_address address (Some family)) = Some Success.
Proof.
  intros H. apply conversion_family_supported in H.
  each_listed H.
  - split; [reflexivity|].
    now rewrite (validate_ethereum address (Some "ethereum") eq_refl).
  - split; [reflexivity|].
    now rewrite (validate_bitcoin address (Some "bitcoin") eq_refl).
  - split; [reflexivity|].
    now rewrite (validate_solana address (Some "solana") eq_refl).
Qed.

Lemma conversion_family_is_known_witness :
  outcome (App.get_blockchain_info "solana") = Some Success
  /\ outcome (App.validate_wallet_address "abc" (Some "solana")) = Some Success.
Proof.
  apply (conversion_family_is_known 5 "SOL" "lamports" "solana" "abc").
  reflexivity.
Defined.

(** ** Blanks and case around a key *)

Lemma lower_app a b : lower (a ++ b) = lower a ++ lower b.
Proof. induction a as [|c a IH]; simpl; [reflexivity | now rewrite IH]. Qed.

Lemma isspace_lower_char c : isspace (lower_char c) = isspace c.
Proof. every_char c. Qed.

Lemma all_space_lower s : all_space (lower s) = all_space s.
Proof.
  induction s as [|c s IH]; simpl; [reflexivity|].
  now rewrite isspace_lower_char, IH.
Qed.

Lemma lstrip_space a s : all_space a = true -> lstrip (a ++ s) = lstrip s.
Proof.
  induction a as [|c a IH]; simpl; [reflexivity|].
  intros H. apply andb_prop in H. destruct H as [Hc Ha]. rewrite Hc. auto.
Qed.

Lemma rstrip_space b : all_space b = true -> rstrip b = EmptyString.
Proof.
  induction b as [|c b IH]; simpl; [reflexivity|].
  intros H. apply andb_prop in H. destruct H as [Hc Hb].
  now rewrite (IH Hb), Hc.
Qed.

Lemma rstrip_app_space a b : all_space b = true -> rstrip (a ++ b) = rstrip a.
Proof.
  intros Hb. induction a as [|c a IH]; simpl.
  - now apply rstrip_space.
  - now rewrite IH.
Qed.

Lemma strip_app_space s b : all_space b = true -> strip (s ++ b) = strip s.
Proof.
  intros Hb. unfold strip. induction s as [|c s IH]; simpl.
  - rewrite (rstrip_space (lstrip b)); [reflexivity|].
    clear -Hb. induction b as [|c b IH]; simpl in *; [reflexivity|].
    apply andb_prop in Hb. destruct Hb as [Hc Hb]. rewrite Hc. auto.
  - destruct (isspace c); [exact IH|].
    change (String c (s ++ b)) with (String c s ++ b).
    now apply rstrip_app_space.
Qed.

Lemma key_of_padded left right a b :
  all_space left = true -> all_space right = true -> lower a = lower b ->
  strip (lower (left ++ a ++ right)) = strip (lower b).
Proof.
  intros Hl Hr Hab. rewrite !lower_app, Hab.
  unfold strip at 1. rewrite lstrip_space by now rewrite all_space_lower.
  fold (strip (lower b ++ lower right)).
  apply strip_app_space. now rewrite all_space_lower.
Qed.

(** X9. [get_blockchain_info] answers a name whatever its case and the blanks
    around it: apart from the message, which repeats the name as given, the
    envelope is that of any other spelling of the name. *)
Theorem get_blockchain_info_ignores_blanks_and_case left right a b :
  all_space left = true -> all_space right = true -> lower a = lower b ->
  without_field "message" (App.get_blockchain_info (left ++ a ++ right))
  = without_field "message" (App.get_blockchain_info b).
Proof.
  intros Hl Hr Hab. unfold App.get_blockchain_info. cbv zeta.
  rewrite (key_of_padded _ _ _ _ Hl Hr Hab).
  destruct (contains App.blockchain_data (strip (lower b))); reflexivity.
Qed.

Lemma get_blockchain_info_ignores_blanks_and_case_witness :
  without_field "message"
    (App.get_blockchain_info ((" " ++ chr 9) ++ "SoLaNa" ++ (nl ++ " ")))
  = without_field "message" (App.get_blockchain_info "solana").
Proof.
  apply (get_blockchain_info_ignores_blanks_and_case
           (" " ++ chr 9) (nl ++ " ") "SoLaNa" "solana"); reflexivity.
Defined.

(** X10. [get_smart_contract_template] answers a template key whatever its
    case and the blanks around it: apart from the message, the envelope is
    that of any other spelling of the key. *)
Theorem get_smart_contract_template_ignores_blanks_and_case left right a b :
  all_space left = true -> all_space right = true -> lower a = lower b ->
  without_field "message" (App.get_smart_contract_template (left ++ a ++ right))
  = without_field "message" (App.get_smart_contract_template b).
Proof.
  intros Hl Hr Hab. unfold App.get_smart_contract_template. cbv zeta.
  rewrite (key_of_padded _ _ _ _ Hl Hr Hab).
  destruct (contains App.templates (strip (lower b))); reflexivity.
Qed.

Lemma get_smart_contract_template_ignores_blanks_and_case_witness :
  without_field "message" (App.get_smart_contract_template (" " ++ "ERC20" ++ nl))
  = without_field "message" (App.get_smart_contract_template "erc20").
Proof.
  apply (get_smart_contract_template_ignores_blanks_and_case
           " " nl "ERC20" "erc20"); reflexivity.
Defined.

Lemma starts_with_space_lower s : starts_with_space (lower s) = starts_with_space s.
Proof. destruct s; [reflexivity|]. apply isspace_lower_char. Qed.

Lemma ends_with_space_lower s : ends_with_space (lower s) = ends_with_space s.
Proof.
  induction s as [|c s IH]; [reflexivity|].
  destruct s as [|c' s']; [apply isspace_lower_char | exact IH].
Qed.

(** A key with a blank at either end is no key of a table. *)
Lemma padded_key_unknown (d : dict) (s : string) :
  forallb (fun kv => negb (starts_with_space (fst kv))
                     && negb (ends_with_space (fst kv))) d = true ->
  starts_with_space s || ends_with_space s = true ->
  contains d (lower s) = false.
Proof.
  intros Hd Hs. apply contains_false. unfold is_key. intros Hin.
  apply in_map_iff in Hin. destruct Hin as ([k v] & Hk & Hin). simpl in Hk.
  rewrite forallb_forall in Hd. specialize (Hd _ Hin). simpl in Hd.
  rewrite Hk, starts_with_space_lower, ends_with_space_lower in Hd.
  apply andb_prop in Hd. destruct Hd as [H1 H2].
  apply orb_prop in Hs. destruct Hs as [Hs|Hs]; rewrite Hs in *; discriminate.
Qed.

(** X11. [explain_gas_fees] does not trim: a chain with a blank before or after
    it is not found, whatever the chain. *)
Theorem explain_gas_fees_rejects_blanks chain :
  starts_with_space chain || ends_with_space chain = true ->
  outcome (App.explain_gas_fees (Some chain)) = Some NotFound.
Proof.
  intros H. unfold App.explain_gas_fees. cbv zeta. cbn [with_default].
  now rewrite (padded_key_unknown App.gas_info chain eq_refl H).
Qed.

Lemma explain_gas_fees_rejects_blanks_witness :
  outcome (App.explain_gas_fees (Some "solana ")) = Some NotFound.
Proof. apply (explain_gas_fees_rejects_blanks "solana "). reflexivity. Defined.

(** X12. [validate_wallet_address] does not trim its chain either: with a blank
    before or after the chain the result is an Error, for any address. *)
Theorem validate_wallet_address_rejects_blanks address chain :
  starts_with_space chain || ends_with_space chain = true ->
  outcome (App.validate_wallet_address address (Some chain)) = Some Error.
Proof.
  intros H. unfold App.validate_wallet_address. cbv zeta. cbn [with_default].
  now rewrite (padded_key_unknown App.validations chain eq_refl H).
Qed.

Lemma validate_wallet_address_rejects_blanks_witness :
  outcome (App.validate_wallet_address
             "0x71C7656EC7ab88b098defB751B7401B5f6d8976F" (Some (nl ++ "ethereum")))
  = Some Error.
Proof.
  apply (validate_wallet_address_rejects_blanks
           "0x71C7656EC7ab88b098defB751B7401B5f6d8976F" (nl ++ "ethereum")).
  reflexivity.
Defined.

(** X13. Nor does [convert_crypto_units] trim its units: a blank before or after
    either unit gives the Error that lists the units, for any amount. *)
Theorem convert_crypto_units_rejects_blanks amount from_unit to_unit :
  (starts_with_space from_unit || ends_with_space from_unit)
  || (starts_with_space to_unit || ends_with_space to_unit) = true ->
  App.convert_crypto_units amount from_unit to_unit
  = ret (PDict
      [ ("status", PStr "error");
        ("message", PStr "Invalid unit");
        ("available_units", PList (map PStr known_units)) ]).
Proof.
  intros H. apply convert_unknown_unit.
  apply orb_prop in H. destruct H as [H|H]; [left|right];
    apply (contains_false App.conversions);
    exact (padded_key_unknown App.conversions _ eq_refl H).
Qed.

Lemma convert_crypto_units_rejects_blanks_witness :
  App.convert_crypto_units 1 "eth" " gwei"
  = ret (PDict
      [ ("status", PStr "error");
        ("message", PStr "Invalid unit");
        ("available_units", PList (map PStr known_units)) ]).
Proof.
  apply (convert_crypto_units_rejects_blanks 1 "eth" " gwei"). reflexivity.
Defined.

(** ** Addresses *)

Lemma newline_lower_char c : Ascii.eqb (lower_char c) "010" = Ascii.eqb c "010".
Proof. every_char c. Qed.

Lemma ends_with_newline_lower s : ends_with_newline (lower s) = ends_with_newline s.
Proof.
  induction s as [|c s IH]; [reflexivity|].
  destruct s as [|c' s']; [apply newline_lower_char | exact IH].
Qed.

Lemma without_last_lower s : without_last (lower s) = lower (without_last s).
Proof.
  induction s as [|c s IH]; [reflexivity|].
  destruct s as [|c' s']; [reflexivity|].
  change (without_last (lower (String c (String c' s'))))
    with (String (lower_char c) (without_last (lower (String c' s')))).
  now rewrite IH.
Qed.

Lemma length_lower s : String.length (lower s) = String.length s.
Proof. induction s as [|c s IH]; simpl; [reflexivity | now rewrite IH]. Qed.

Lemma drop_lower n : forall s, drop n (lower s) = lower (drop n s).
Proof.
  induction n as [|n IH]; intros s; destruct s as [|c s]; try reflexivity.
  simpl. apply IH.
Qed.

Lemma starts_with_lower p : forall s,
  starts_with p s = true -> starts_with (lower p) (lower s) = true.
Proof.
  induction p as [|a p IH]; intros s; [reflexivity|].
  destruct s as [|c s]; simpl; [discriminate|].
  intros H. apply andb_prop in H. destruct H as [Hc Hs].
  apply Ascii.eqb_eq in Hc. subst c. now rewrite Ascii.eqb_refl, IH.
Qed.

Section LowerAlphabet.

Variable alphabet : string.
Hypothesis closed :
  forall c, negb (mem c alphabet) || mem (lower_char c) alphabet = true.

Lemma all_in_lower s : all_in alphabet s = true -> all_in alphabet (lower s) = true.
Proof.
  induction s as [|c s IH]; simpl; [reflexivity|].
  intros H. apply andb_prop in H. destruct H as [Hc Hs].
  specialize (closed c). rewrite Hc in closed. simpl in closed.
  now rewrite closed, IH.
Qed.

Lemma prefixed_shape_lower prefixes lo hi s :
  Forall (fun p => lower p = p) prefixes ->
  prefixed_shape prefixes alphabet lo hi s = true ->
  prefixed_shape prefixes alphabet lo hi (lower s) = true.
Proof.
  unfold prefixed_shape, tail_ok. intros Hp H.
  apply existsb_exists in H. destruct H as (p & Hin & H).
  apply existsb_exists. exists p. split; [exact Hin|].
  rewrite Forall_forall in Hp. specialize (Hp _ Hin).
  apply andb_prop in H. destruct H as [H1 H]. apply andb_prop in H.
  destruct H as [H2 H3].
  rewrite <- Hp at 1. rewrite (starts_with_lower _ _ H1).
  now rewrite drop_lower, length_lower, H2, all_in_lower.
Qed.

Lemma accepts_lower prefixes lo hi s :
  Forall (fun p => lower p = p) prefixes ->
  accepts (prefixed_shape prefixes alphabet lo hi) s = true ->
  accepts (prefixed_shape prefixes alphabet lo hi) (lower s) = true.
Proof.
  unfold accepts. intros Hp H.
  rewrite ends_with_newline_lower, without_last_lower.
  apply orb_prop in H. destruct H as [H|H].
  - now rewrite (prefixed_shape_lower _ _ _ _ Hp H).
  - apply andb_prop in H. destruct H as [H1 H2].
    rewrite H1, (prefixed_shape_lower _ _ _ _ Hp H2). btauto.
Qed.

End LowerAlphabet.

Lemma hex_closed c : negb (mem c hex_digits) || mem (lower_char c) hex_digits = true.
Proof. every_char c. Qed.

Lemma bitcoin_chars_closed c :
  negb (mem c bitcoin_chars) || mem (lower_char c) bitcoin_chars = true.
Proof. every_char c. Qed.

(** X14. An address that is valid for Ethereum or for Bitcoin is still valid
    written in lowercase: the validator checks no checksum case. *)
Theorem valid_address_stays_valid_in_lowercase address chain_arg :
  lower (with_default chain_arg "ethereum") = "ethereum"
  \/ lower (with_default chain_arg "ethereum") = "bitcoin" ->
  valid_flag (App.validate_wallet_address address chain_arg) = Some true ->
  valid_flag (App.validate_wallet_address (lower address) chain_arg) = Some true.
Proof.
  intros [H|H].
  - rewrite !(validate_ethereum _ _ H). cbn -[accepts]. intros E.
    injection E as E. f_equal.
    apply (accepts_lower hex_digits hex_closed); [|exact E].
    repeat constructor.
  - rewrite !(validate_bitcoin _ _ H). cbn -[accepts]. intros E.
    injection E as E. f_equal.
    apply (accepts_lower bitcoin_chars bitcoin_chars_closed); [|exact E].
    repeat constructor.
Qed.

Lemma valid_address_stays_valid_in_lowercase_witness :
  valid_flag (App.validate_wallet_address
                (lower "0x71C7656EC7ab88b098defB751B7401B5f6d8976F") None)
  = Some true.
Proof.
  apply (valid_address_stays_valid_in_lowercase
           "0x71C7656EC7ab88b098defB751B7401B5f6d8976F" None).
  - left. reflexivity.
  - vm_compute. reflexivity.
Defined.

Lemma starts_with_without_last p : forall s,
  starts_with p (without_last s) = true -> starts_with p s = true.
Proof.
  induction p as [|a p IH]; intros s; [reflexivity|].
  destruct s as [|c [|c' s']]; try discriminate.
  change (without_last (String c (String c' s')))
    with (String c (without_last (String c' s'))).
  cbn [starts_with]. intros H. apply andb_prop in H. destruct H as [Hc Hs].
  now rewrite Hc, (IH _ Hs).
Qed.

Lemma accepted_ethereum_starts s :
  accepts ethereum_shape s = true -> starts_with "0x" s = true.
Proof.
  unfold accepts, ethereum_shape, prefixed_shape, existsb. intros H.
  apply orb_prop in H. destruct H as [H|H].
  - rewrite orb_false_r in H. apply andb_prop in H. tauto.
  - apply andb_prop in H. destruct H as [_ H]. rewrite orb_false_r in H.
    apply andb_prop in H. destruct H as [H _].
    now apply starts_with_without_last.
Qed.

Lemma bitcoin_shape_zero s : bitcoin_shape (String "0" s) = false.
Proof. unfold bitcoin_shape, prefixed_shape. cbn -[tail_ok drop]. reflexivity. Qed.

Lemma solana_shape_zero s : solana_shape (String "0" s) = false.
Proof.
  unfold solana_shape, tail_ok. cbn [all_in].
  change (mem "0" base58) with false. cbn [andb]. apply andb_false_r.
Qed.

(** X15. No address is valid for Ethereum and for another chain as well: what
    the Ethereum pattern accepts, the Bitcoin and Solana patterns reject. *)
Theorem ethereum_address_is_no_other address :
  valid_flag (App.validate_wallet_address address (Some "ethereum")) = Some true ->
  valid_flag (App.validate_wallet_address address (Some "bitcoin")) = Some false
  /\ valid_flag (App.validate_wallet_address address (Some "solana")) = Some false.
Proof.
  rewrite (validate_ethereum address (Some "ethereum") eq_refl),
    (validate_bitcoin address (Some "bitcoin") eq_refl),
    (validate_solana address (Some "solana") eq_refl).
  cbn -[accepts]. intros E. injection E as E.
  apply accepted_ethereum_starts in E.
  destruct address as [|c [|c' t]];
    [ discriminate
    | cbn [starts_with] in E; rewrite andb_false_r in E; discriminate | ].
  cbn [starts_with] in E. apply andb_prop in E. destruct E as [Hc E].
  apply Ascii.eqb_eq in Hc. subst c.
  unfold accepts.
  change (without_last (String "0" (String c' t)))
    with (String "0" (without_last (String c' t))).
  rewrite !bitcoin_shape_zero, !solana_shape_zero, !andb_false_r. split; reflexivity.
Qed.

Lemma ethereum_address_is_no_other_witness :
  valid_flag (App.validate_wallet_address
                "0x71C7656EC7ab88b098defB751B7401B5f6d8976F" (Some "bitcoin"))
  = Some false
  /\ valid_flag (App.validate_wallet_address
                   "0x71C7656EC7ab88b098defB751B7401B5f6d8976F" (Some "solana"))
     = Some false.
Proof.
  apply (ethereum_address_is_no_other "0x71C7656EC7ab88b098defB751B7401B5f6d8976F").
  vm_compute. reflexivity.
Defined.

Lemma length_starts_with p : forall s,
  starts_with p s = true ->
  String.length s = String.length p + String.length (drop (String.length p) s).
Proof.
  induction p as [|a p IH]; intros s; [reflexivity|].
  destruct s as [|c s]; simpl; [discriminate|].
  intros H. apply andb_prop in H. destruct H as [_ H]. now rewrite (IH _ H).
Qed.

Lemma length_without_last s :
  ends_with_newline s = true ->
  String.length s = S (String.length (without_last s)).
Proof.
  induction s as [|c s IH]; [discriminate|].
  destruct s as [|c' s']; [reflexivity|].
  change (ends_with_newline (String c (String c' s')))
    with (ends_with_newline (String c' s')).
  change (without_last (String c (String c' s')))
    with (String c (without_last (String c' s'))).
  intros H. specialize (IH H). cbn [String.length] in *. lia.
Qed.

Lemma tail_ok_length alphabet lo hi s :
  tail_ok alphabet lo hi s = true -> lo <= String.length s <= hi.
Proof.
  unfold tail_ok, between. intros H.
  apply andb_prop in H. destruct H as [H _]. apply andb_prop in H.
  destruct H as [H1 H2]. apply Nat.leb_le in H1, H2. lia.
Qed.

Lemma prefixed_shape_length prefixes alphabet lo hi s :
  prefixed_shape prefixes alphabet lo hi s = true ->
  exists p, In p prefixes
            /\ lo + String.length p <= String.length s <= hi + String.length p.
Proof.
  unfold prefixed_shape. intros H. apply existsb_exists in H.
  destruct H as (p & Hin & H). exists p. split; [exact Hin|].
  apply andb_prop in H. destruct H as [H1 H2].
  apply tail_ok_length in H2. rewrite (length_starts_with _ _ H1). lia.
Qed.

Lemma accepts_length (shape : string -> bool) (lo hi : nat) s :
  (forall t, shape t = true -> lo <= String.length t <= hi) ->
  accepts shape s = true -> lo <= String.length s <= S hi.
Proof.
  unfold accepts. intros Hs H. apply orb_prop in H. destruct H as [H|H].
  - apply Hs in H. lia.
  - apply andb_prop in H. destruct H as [H1 H2]. apply Hs in H2.
    rewrite (length_without_last _ H1). lia.
Qed.

(** X16. An address the validator finds valid has a bounded length: 42 or 43
    characters for Ethereum, 26 to 66 for Bitcoin, 32 to 45 for Solana.
    Nothing longer is ever valid. *)
Theorem valid_address_length address chain_arg :
  valid_flag (App.validate_wallet_address address chain_arg) = Some true ->
  let chain := lower (with_default chain_arg "ethereum") in
  let n := String.length address in
  (chain = "ethereum" /\ 42 <= n <= 43)
  \/ (chain = "bitcoin" /\ 26 <= n <= 66)
  \/ (chain = "solana" /\ 32 <= n <= 45).
Proof.
  intros H chain n. subst chain n.
  destruct (contains App.validations (lower (with_default chain_arg "ethereum")))
    eqn:E.
  - key_cases E; symmetry in E; rewrite E.
    + left. split; [reflexivity|].
      rewrite (validate_ethereum _ _ E) in H. cbn -[accepts] in H.
      injection H as H. revert H. apply accepts_length.
      intros t Ht. apply prefixed_shape_length in Ht.
      destruct Ht as (p & [<-|[]] & Hp). simpl in Hp. lia.
    + right; left. split; [reflexivity|].
      rewrite (validate_bitcoin _ _ E) in H. cbn -[accepts] in H.
      injection H as H.
      apply (accepts_length bitcoin_shape 26 65); [|exact H].
      intros t Ht. apply prefixed_shape_length in Ht.
      destruct Ht as (p & [<-|[<-|[<-|[]]]] & Hp); simpl in Hp; lia.
    + right; right. split; [reflexivity|].
      rewrite (validate_solana _ _ E) in H. cbn -[accepts] in H.
      injection H as H.
      apply (accepts_length solana_shape 32 44); [|exact H].
      intros t Ht. now apply tail_ok_length in Ht.
  - apply contains_false in E. rewrite (validate_unsupported _ _ E) in H.
    discriminate H.
Qed.

Lemma valid_address_length_witness :
  let chain := lower (with_default (Some "Ethereum") "ethereum") in
  let n := String.length "0x71C7656EC7ab88b098defB751B7401B5f6d8976F" in
  (chain = "ethereum" /\ 42 <= n <= 43)
  \/ (chain = "bitcoin" /\ 26 <= n <= 66)
  \/ (chain = "solana" /\ 32 <= n <= 45).
Proof.
  apply (valid_address_length
           "0x71C7656EC7ab88b098defB751B7401B5f6d8976F" (Some "Ethereum")).
  vm_compute. reflexivity.
Defined.

(** ** Signs and exact conversions *)

Module Exact.
Import SpecFloat Binary64.

#[local] Open Scope Z_scope.

Lemma binary_round_aux_opp s m e l :
  binary_round_aux prec emax (negb s) m e l
  = SFopp (binary_round_aux prec emax s m e l).
Proof.
  unfold binary_round_aux.
  destruct (shr_fexp prec emax m e l) as [mrs1 e1].
  destruct (shr_fexp prec emax _ e1 loc_Exact) as [mrs2 e2].
  destruct (shr_m mrs2) as [|p|p]; try reflexivity.
  destruct (e2 <=? emax - prec); reflexivity.
Qed.

Lemma SFmul_opp x y :
  SFmul prec emax (SFopp x) y = SFopp (SFmul prec emax x y).
Proof.
  destruct x as [sx|sx| |sx mx ex], y as [sy|sy| |sy my ey]; cbn;
    rewrite <- ?negb_xorb_l; try reflexivity.
  apply binary_round_aux_opp.
Qed.

Lemma SFdiv_opp x y :
  SFdiv prec emax (SFopp x) y = SFopp (SFdiv prec emax x y).
Proof.
  destruct x as [sx|sx| |sx mx ex], y as [sy|sy| |sy my ey]; cbn;
    rewrite <- ?negb_xorb_l; try reflexivity.
  destruct (SFdiv_core_binary prec emax (Z.pos mx) ex (Z.pos my) ey) as [[mz ez] lz].
  apply binary_round_aux_opp.
Qed.

Lemma Prim2SF_inj (x y : float) : Prim2SF x = Prim2SF y -> x = y.
Proof.
  intros H. rewrite <- (SF2Prim_Prim2SF x), <- (SF2Prim_Prim2SF y). now rewrite H.
Qed.

(** The product by a factor, divided by another, of the opposite is the
    opposite. *)
Lemma opp_mul_div (a k1 k2 : float) :
  (- a * k1 / k2 = - (a * k1 / k2))%float.
Proof.
  apply Prim2SF_inj.
  rewrite FloatAxioms.opp_spec, !FloatAxioms.div_spec, !FloatAxioms.mul_spec,
    FloatAxioms.opp_spec.
  unfold SF64div, SF64mul. now rewrite SFmul_opp, SFdiv_opp.
Qed.

End Exact.

(** X17. [convert_crypto_units] is odd in the amount: for every amount, NaN and
    the infinities included, and every pair of units, the opposite amount
    gives the opposite output, and the same error when there is one. *)
Theorem convert_crypto_units_opposite amount from_unit to_unit :
  output_amount (App.convert_crypto_units (- amount) from_unit to_unit)
  = option_map PrimFloat.opp
      (output_amount (App.convert_crypto_units amount from_unit to_unit))
  /\ outcome (App.convert_crypto_units (- amount) from_unit to_unit)
     = outcome (App.convert_crypto_units amount from_unit to_unit).
Proof.
  unfold App.convert_crypto_units. cbv zeta.
  destruct (contains App.conversions (lower from_unit)) eqn:Ef;
    [destruct (contains App.conversions (lower to_unit)) eqn:Et|].
  - key_cases Ef; key_cases Et; rewrite <- Ef, <- Et; vm_compute;
      (split; [first [reflexivity | f_equal; apply Exact.opp_mul_div] | reflexivity]).
  - cbn [negb orb]. split; reflexivity.
  - cbn [negb orb]. split; reflexivity.
Qed.

(** ** Conversions that are exact *)

Module Unit.
Import SpecFloat Binary64.

#[local] Open Scope Z_scope.

#[local] Abbreviation one := (S754_finite false 4503599627370496 (-52)).

Lemma locates_integer (k m : Z) (l : location) :
  locates (IZR k) m l -> m = k /\ l = loc_Exact.
Proof.
  destruct l as [|[]]; cbn [locates].
  - intros H. apply eq_IZR in H. auto.
  - intros H. exfalso.
    assert (H1 : (IZR m < IZR k)%R) by lra.
    assert (H2 : (IZR k < IZR (m + 1))%R) by (rewrite plus_IZR; lra).
    apply lt_IZR in H1, H2. lia.
  - intros [H1 H2]. exfalso.
    assert (H3 : (IZR m < IZR k)%R) by lra.
    assert (H4 : (IZR k < IZR (m + 1))%R) by (rewrite plus_IZR; lra).
    apply lt_IZR in H3, H4. lia.
  - intros [H1 H2]. exfalso.
    assert (H3 : (IZR m < IZR k)%R) by lra.
    assert (H4 : (IZR k < IZR (m + 1))%R) by (rewrite plus_IZR; lra).
    apply lt_IZR in H3, H4. lia.
Qed.

(** A canonical mantissa and exponent, unfolded. *)
Lemma bounded_unfold mx ex :
  bounded prec emax mx ex = true ->
  Z.max (Zpos (digits2_pos mx) + ex - 53) (-1074) = ex /\ ex <= 971.
Proof.
  unfold bounded, canonical_mantissa, fexp, SpecFloat.emin, prec, emax.
  intros H. apply andb_prop in H. destruct H as [H1 H2].
  apply Z.eqb_eq in H1. apply Z.leb_le in H2. lia.
Qed.

(** Rounding what the first shift has made exact keeps it. *)
Lemma round_aux_exact s m e l mrs mx ex :
  shr_fexp prec emax m e l = (mrs, ex) ->
  shr_m mrs = Zpos mx -> loc_of_shr_record mrs = loc_Exact ->
  bounded prec emax mx ex = true ->
  binary_round_aux prec emax s m e l = S754_finite s mx ex.
Proof.
  intros H1 Hm Hl Hb. unfold binary_round_aux. rewrite H1, Hm, Hl.
  cbn [round_nearest_even]. unfold shr_fexp. cbn [Zdigits2].
  destruct (bounded_unfold _ _ Hb) as [Hc He].
  unfold fexp, SpecFloat.emin, prec, emax.
  replace (Z.max (Zpos (digits2_pos mx) + ex - 53) (3 - 1024 - 53) - ex) with 0
    by lia.
  cbn [shr shr_record_of_loc shr_m].
  replace (ex <=? 1024 - 53) with true by (symmetry; apply Z.leb_le; lia).
  reflexivity.
Qed.

Lemma digits_shift (mx : positive) (k : Z) (p : positive) :
  0 <= k -> Zpos p = Zpos mx * 2 ^ k ->
  Zpos (digits2_pos p) = Zpos (digits2_pos mx) + k.
Proof.
  intros Hk Hp. apply Rounding.digits2_pos_unique.
  pose proof (Rounding.digits2_pos_bounds mx) as [B1 B2].
  set (d := Zpos (digits2_pos mx)) in *.
  assert (0 < d) by (subst d; lia).
  replace (d + k - 1) with (d - 1 + k) by lia.
  rewrite !Z.pow_add_r by lia.
  assert (0 < 2 ^ k) by (apply Z.pow_pos_nonneg; lia).
  rewrite Hp. split; nia.
Qed.

(** Shifting out zeros: the record that is left is exact. *)
Lemma shr_exact (mx : positive) (k : Z) (p : positive) (e : Z) :
  0 <= k -> Zpos p = Zpos mx * 2 ^ k ->
  exists mrs,
    shr (shr_record_of_loc (Zpos p) loc_Exact) e k = (mrs, e + k)
    /\ shr_m mrs = Zpos mx /\ loc_of_shr_record mrs = loc_Exact.
Proof.
  intros Hk Hp. rewrite Rounding.shr_nat by exact Hk.
  eexists. split; [reflexivity|].
  assert (L0 : locates (IZR (Zpos p))
                 (shr_m (shr_record_of_loc (Zpos p) loc_Exact))
                 (loc_of_shr_record (shr_record_of_loc (Zpos p) loc_Exact)))
    by reflexivity.
  assert (H0 : 0 <= shr_m (shr_record_of_loc (Zpos p) loc_Exact)) by (cbn; lia).
  destruct (Rounding.shr_iter_locates (Z.to_nat k) _ _ H0 L0) as [_ L].
  replace (IZR (Zpos p) / 2 ^ Z.to_nat k)%R with (IZR (Zpos mx)) in L.
  - apply locates_integer in L. tauto.
  - rewrite Hp, mult_IZR, <- (Z2Nat.id k Hk) at 1.
    rewrite <- pow_IZR. field. apply pow_nonzero. lra.
Qed.

Lemma SFmul_one x :
  SpecFloat.valid_binary prec emax x = true -> SFmul prec emax x one = x.
Proof.
  intros Hb.
  destruct x as [s|s| |s mx ex]; cbn [SFmul xorb];
    try reflexivity; try (destruct s; reflexivity).
  cbn [SpecFloat.valid_binary] in Hb.
  replace (xorb s false) with s by (destruct s; reflexivity).
  destruct (bounded_unfold _ _ Hb) as [Hc He].
  assert (Hp : Zpos (mx * 4503599627370496) = Zpos mx * 2 ^ 52) by reflexivity.
  destruct (shr_exact mx 52 (mx * 4503599627370496) (ex + -52)) as (mrs & Hs & Hm & Hl);
    [lia | exact Hp |].
  apply (round_aux_exact s _ _ _ mrs mx ex); try assumption.
  unfold shr_fexp. cbn [Zdigits2].
  rewrite (digits_shift mx 52 (mx * 4503599627370496)) by (lia || exact Hp).
  unfold fexp, SpecFloat.emin, prec, emax.
  replace (Z.max (Zpos (digits2_pos mx) + 52 + (ex + -52) - 53) (3 - 1024 - 53)
           - (ex + -52)) with 52 by lia.
  rewrite Hs. f_equal. lia.
Qed.

Lemma div_eucl_exact (a b q : Z) :
  0 < b -> a = q * b -> Z.div_eucl a b = (q, 0).
Proof.
  intros Hb Ha.
  pose proof (Z_div_mod a b ltac:(lia)) as H.
  destruct (Z.div_eucl a b) as [q' r']. destruct H as [H1 H2].
  assert (q' = q) by nia. subst q'. f_equal. nia.
Qed.

Lemma SFdiv_one x :
  SpecFloat.valid_binary prec emax x = true -> SFdiv prec emax x one = x.
Proof.
  intros Hb.
  destruct x as [s|s| |s mx ex]; cbn [SFdiv xorb];
    try reflexivity; try (destruct s; reflexivity).
  cbn [SpecFloat.valid_binary] in Hb.
  replace (xorb s false) with s by (destruct s; reflexivity).
  destruct (bounded_unfold _ _ Hb) as [Hc He].
  unfold SFdiv_core_binary. cbn [Zdigits2].
  change (Zpos (digits2_pos 4503599627370496)) with 53.
  unfold fexp, SpecFloat.emin, prec, emax.
  set (d := Zpos (digits2_pos mx)) in *.
  assert (Hd : 0 < d) by (subst d; lia).
  destruct (Z.eq_dec ex (-1074)) as [Emin|Enorm].
  - (* the least exponent: no extra bit *)
    replace (Z.min (Z.max (d + ex - (53 + -52) - 53) (3 - 1024 - 53)) (ex - -52))
      with ex by lia.
    replace (ex - -52 - ex) with 52 by lia.
    rewrite Z.shiftl_mul_pow2 by lia.
    rewrite (div_eucl_exact _ _ (Zpos mx)) by (try reflexivity; lia).
    change (new_location 4503599627370496 0) with loc_Exact.
    apply (round_aux_exact s _ _ _ (shr_record_of_loc (Zpos mx) loc_Exact) mx ex);
      try reflexivity; try assumption.
    unfold shr_fexp. cbn [Zdigits2]. fold d.
    unfold fexp, SpecFloat.emin, prec, emax.
    replace (Z.max (d + ex - 53) (3 - 1024 - 53) - ex) with 0 by lia.
    reflexivity.
  - (* a normal number: the quotient has one bit more *)
    assert (Ed : d = 53) by lia.
    replace (Z.min (Z.max (d + ex - (53 + -52) - 53) (3 - 1024 - 53)) (ex - -52))
      with (ex - 1) by lia.
    replace (ex - -52 - (ex - 1)) with 53 by lia.
    rewrite Z.shiftl_mul_pow2 by lia.
    rewrite (div_eucl_exact _ _ (Zpos mx~0)) by (try reflexivity; lia).
    change (new_location 4503599627370496 0) with loc_Exact.
    assert (Hp : Zpos mx~0 = Zpos mx * 2 ^ 1) by lia.
    destruct (shr_exact mx 1 (mx~0) (ex - 1)) as (mrs & Hs & Hm & Hl);
      [lia | exact Hp |].
    apply (round_aux_exact s _ _ _ mrs mx ex); try assumption.
    unfold shr_fexp. cbn [Zdigits2].
    rewrite (digits_shift mx 1 (mx~0)) by (lia || exact Hp). fold d.
    unfold fexp, SpecFloat.emin, prec, emax.
    replace (Z.max (d + 1 + (ex - 1) - 53) (3 - 1024 - 53) - (ex - 1)) with 1 by lia.
    rewrite Hs. f_equal. lia.
Qed.

(** Multiplying and dividing by one changes no binary64 number. *)
Lemma mul_div_one (a : float) : (a * 1 / 1 = a)%float.
Proof.
  apply Exact.Prim2SF_inj.
  rewrite FloatAxioms.div_spec, FloatAxioms.mul_spec.
  replace (Prim2SF 1) with one by (vm_compute; reflexivity).
  unfold SF64div, SF64mul.
  rewrite SFmul_one by apply Prim2SF_valid.
  apply SFdiv_one. apply Prim2SF_valid.
Qed.

End Unit.

(** X18. Between the units of weight one ([wei]; [satoshi] and [sat];
    [lamport] and [lamports]) a conversion returns the amount itself,
    with no rounding, for every amount: the infinities, the subnormal
    numbers and NaN included. *)
Theorem convert_between_base_units_is_exact amount from_unit to_unit family :
  has_entry unit_definitions (lower from_unit) (family, 1%float) ->
  has_entry unit_definitions (lower to_unit) (family, 1%float) ->
  output_amount (App.convert_crypto_units amount from_unit to_unit) = Some amount.
Proof.
  intros Hfrom Hto. rewrite (convert_same_family _ _ _ _ _ _ Hfrom Hto).
  cbn. f_equal. apply Unit.mul_div_one.
Qed.

Lemma convert_between_base_units_is_exact_witness :
  output_amount (App.convert_crypto_units 0.1 "Satoshi" "SAT") = Some 0.1%float.
Proof.
  apply (convert_between_base_units_is_exact 0.1 "Satoshi" "SAT" "bitcoin").
  - do 4 right. left. reflexivity.
  - do 5 right. left. reflexivity.
Defined.

(** ** Conversions through a third unit *)

Module Via.
Import SpecFloat Binary64.

#[local] Open Scope R_scope.

Lemma six_roundings :
  let e1 := 0 + u53 + 0 * u53 in
  let e2 := e1 + u53 + e1 * u53 in
  let e3 := e2 + u53 + e2 * u53 in
  let e4 := e3 + u53 + e3 * u53 in
  0 <= e1 /\ 0 <= e2 /\ 0 <= e3 /\ 0 <= e4 /\ e2 <= / 2
  /\ (e4 + e2) * (1 + 2 * e2) <= tolerance.
Proof.
  assert (Hu : 0 < u53) by apply Rounding.bpow_pos.
  assert (Hv : u53 <= / 10 ^ 15 / 8).
  { unfold u53, bpow. cbn [powerRZ]. rewrite pow_IZR.
    change (2 ^ Z.of_nat (Pos.to_nat 53))%Z with 9007199254740992%Z.
    apply Rmult_le_reg_r with (IZR 9007199254740992); [lra|].
    rewrite Rinv_l by lra. lra. }
  cbv zeta. unfold tolerance.
  set (t := / 10 ^ 15) in *.
  assert (Ht0 : 0 < t) by (subst t; apply Rinv_0_lt_compat; lra).
  assert (Ht1 : t <= / 1000).
  { subst t. apply Rinv_le_contravar; lra. }
  set (u := u53) in *.
  assert (B1 : 0 + u + 0 * u <= t / 8) by lra.
  set (e1 := 0 + u + 0 * u) in *.
  assert (P1 : 0 <= e1) by (subst e1; lra).
  assert (B2 : e1 + u + e1 * u <= 27 / 100 * t) by nra.
  assert (P2 : 0 <= e1 + u + e1 * u) by nra.
  set (e2 := e1 + u + e1 * u) in *.
  assert (B3 : e2 + u + e2 * u <= 43 / 100 * t) by nra.
  assert (P3 : 0 <= e2 + u + e2 * u) by nra.
  set (e3 := e2 + u + e2 * u) in *.
  assert (B4 : e3 + u + e3 * u <= 61 / 100 * t) by nra.
  assert (P4 : 0 <= e3 + u + e3 * u) by nra.
  set (e4 := e3 + u + e3 * u) in *.
  repeat split; try assumption; try lra.
  assert (0 <= e4 + e2 <= 88 / 100 * t) by lra.
  assert (1 <= 1 + 2 * e2 <= 1 + / 100) by lra.
  nra.
Qed.

Lemma close_to_the_same (x y t e4 e2 : R) :
  0 <= e4 -> 0 <= e2 -> e2 <= / 2 ->
  Rabs (x - t) <= e4 * Rabs t ->
  Rabs (y - t) <= e2 * Rabs t ->
  Rabs (x - y) <= (e4 + e2) * (1 + 2 * e2) * Rabs y.
Proof.
  intros H4 H2 Hh Hx Hy.
  assert (Hxy : Rabs (x - y) <= (e4 + e2) * Rabs t).
  { replace (x - y) with ((x - t) + - (y - t)) by ring.
    eapply Rle_trans; [apply Rabs_triang|]. rewrite Rabs_Ropp. lra. }
  assert (Ht : (1 - e2) * Rabs t <= Rabs y).
  { assert (Rabs t <= Rabs y + Rabs (y - t)).
    { replace t with (y + - (y - t)) at 1 by ring.
      eapply Rle_trans; [apply Rabs_triang|]. rewrite Rabs_Ropp. lra. }
    lra. }
  pose proof (Rabs_pos t). pose proof (Rabs_pos y).
  assert (Hq : 0 <= e2 * (1 - 2 * e2)) by (apply Rmult_le_pos; lra).
  assert (Hm : (1 + 2 * e2) * ((1 - e2) * Rabs t) <= (1 + 2 * e2) * Rabs y)
    by (apply Rmult_le_compat_l; lra).
  assert (Hp : 0 <= e2 * (1 - 2 * e2) * Rabs t) by (apply Rmult_le_pos; lra).
  assert (Hk : Rabs t <= (1 + 2 * e2) * Rabs y).
  { replace (Rabs t)
      with ((1 + 2 * e2) * ((1 - e2) * Rabs t) - e2 * (1 - 2 * e2) * Rabs t)
      by ring.
    lra. }
  eapply Rle_trans; [exact Hxy|].
  rewrite Rmult_assoc. apply Rmult_le_compat_l; lra.
Qed.

Lemma via_normal (A K1 K2 K3 : spec_float) (eA e1 e2 e3 : Z) :
  normal A eA -> normal K1 e1 -> normal K2 e2 -> normal K3 e3 ->
  (-949 <= eA <= 844)%Z ->
  (-52 <= e1 <= 7)%Z -> (-52 <= e2 <= 7)%Z -> (-52 <= e3 <= 7)%Z ->
  let there := SFdiv prec emax (SFmul prec emax A K1) K2 in
  let via := SFdiv prec emax (SFmul prec emax there K2) K3 in
  let direct := SFdiv prec emax (SFmul prec emax A K1) K3 in
  exists e,
    normal via e
    /\ Rabs (SF2R via - SF2R direct) <= tolerance * Rabs (SF2R direct).
Proof.
  intros HA HK1 HK2 HK3 BA B1 B2 B3 there via direct.
  destruct (Rounding.SFmul_normal A K1 eA e1 HA HK1) as (x1e & N1 & Bx1 & E1);
    try lia.
  destruct (Rounding.SFdiv_normal _ K2 x1e e2 N1 HK2) as (x2e & N2 & Bx2 & E2);
    try lia.
  fold there in N2, E2.
  destruct (Rounding.SFmul_normal there K2 x2e e2 N2 HK2) as (x3e & N3 & Bx3 & E3);
    try lia.
  destruct (Rounding.SFdiv_normal _ K3 x3e e3 N3 HK3) as (x4e & N4 & Bx4 & E4);
    try lia.
  fold via in N4, E4.
  destruct (Rounding.SFdiv_normal _ K3 x1e e3 N1 HK3) as (y2e & M2 & By2 & F2);
    try lia.
  fold direct in M2, F2.
  exists x4e. split; [exact N4|].
  pose proof (Rounding.SF2R_normal_nonzero _ _ HK2) as Hc2.
  pose proof (Rounding.SF2R_normal_nonzero _ _ HK3) as Hc3.
  set (a := SF2R A) in *. set (c1 := SF2R K1) in *.
  set (c2 := SF2R K2) in *. set (c3 := SF2R K3) in *.
  destruct six_roundings as (P1 & P2 & P3 & P4 & Ph & Pt).
  assert (S0 : Rabs (a - a) <= 0 * Rabs a)
    by (rewrite Rminus_diag, Rabs_R0; lra).
  pose proof (Rounding.rel_step 0 a a _ c1 (Rle_refl 0) S0 E1) as S1.
  unfold Rdiv in E2, E4, F2.
  pose proof (Rounding.rel_step _ _ _ _ (/ c2) P1 S1 E2) as S2.
  pose proof (Rounding.rel_step _ _ _ _ c2 P2 S2 E3) as S3.
  pose proof (Rounding.rel_step _ _ _ _ (/ c3) P3 S3 E4) as S4.
  pose proof (Rounding.rel_step _ _ _ _ (/ c3) P1 S1 F2) as T2.
  replace (a * c1 * / c2 * c2 * / c3) with (a * c1 * / c3) in S4 by (field; auto).
  eapply Rle_trans; [|apply Rmult_le_compat_r; [apply Rabs_pos | exact Pt]].
  exact (close_to_the_same _ _ _ _ _ P4 P2 Ph S4 T2).
Qed.

Lemma via_floats (a k1 k2 k3 : float) (e1 e2 e3 : Z) :
  amount_in_range a = true ->
  normal (Prim2SF k1) e1 -> normal (Prim2SF k2) e2 -> normal (Prim2SF k3) e3 ->
  (-52 <= e1 <= 7)%Z -> (-52 <= e2 <= 7)%Z -> (-52 <= e3 <= 7)%Z ->
  close (a * k1 / k2 * k2 / k3)%float (a * k1 / k3)%float.
Proof.
  intros Ha H1 H2 H3 B1 B2 B3. unfold close, finite, F2R.
  rewrite !FloatAxioms.div_spec, !FloatAxioms.mul_spec,
    !FloatAxioms.div_spec, !FloatAxioms.mul_spec.
  unfold SF64div, SF64mul.
  destruct (Rounding.amount_in_range_cases a Ha) as [[s Ez]|(eA & HA & BA)].
  - rewrite Ez. destruct H1 as (s1 & m1 & -> & _).
    destruct H2 as (s2 & m2 & -> & _). destruct H3 as (s3 & m3 & -> & _).
    cbn. split; [reflexivity|]. rewrite Rminus_diag, Rabs_R0. lra.
  - destruct (via_normal _ _ _ _ eA e1 e2 e3 HA H1 H2 H3 BA B1 B2 B3)
      as (e & (s & m & E & Bm) & Herr).
    cbv zeta in E, Herr. rewrite E in Herr |- *. split; [reflexivity|]. exact Herr.
Qed.

End Via.

(** X19. Going through a third unit changes little: for three units of one
    family and an amount that is zero or of magnitude 1e-270 to 1e270,
    converting to the second unit and from there to the third gives a finite
    amount within the relative tolerance 1e-15 of the direct conversion. *)
Theorem convert_through_a_third_unit
    amount unit1 unit2 unit3 family k1 k2 k3 :
  has_entry unit_definitions (lower unit1) (family, k1) ->
  has_entry unit_definitions (lower unit2) (family, k2) ->
  has_entry unit_definitions (lower unit3) (family, k3) ->
  amount_in_range amount = true ->
  exists there via direct,
    output_amount (App.convert_crypto_units amount unit1 unit2) = Some there
    /\ output_amount (App.convert_crypto_units there unit2 unit3) = Some via
    /\ output_amount (App.convert_crypto_units amount unit1 unit3) = Some direct
    /\ close via direct.
Proof.
  intros H1 H2 H3 Hrange.
  destruct (unit_factor_normal _ _ _ H1) as (e1 & N1 & B1).
  destruct (unit_factor_normal _ _ _ H2) as (e2 & N2 & B2).
  destruct (unit_factor_normal _ _ _ H3) as (e3 & N3 & B3).
  exists (amount * k1 / k2)%float, (amount * k1 / k2 * k2 / k3)%float,
    (amount * k1 / k3)%float.
  split; [now rewrite (convert_same_family _ _ _ _ _ _ H1 H2)|].
  split; [now rewrite (convert_same_family _ _ _ _ _ _ H2 H3)|].
  split; [now rewrite (convert_same_family _ _ _ _ _ _ H1 H3)|].
  exact (Via.via_floats amount k1 k2 k3 e1 e2 e3 Hrange N1 N2 N3 B1 B2 B3).
Qed.

Lemma convert_through_a_third_unit_witness :
  exists there via direct,
    output_amount (App.convert_crypto_units 2.5 "eth" "gwei") = Some there
    /\ output_amount (App.convert_crypto_units there "gwei" "wei") = Some via
    /\ output_amount (App.convert_crypto_units 2.5 "eth" "wei") = Some direct
    /\ close via direct.
Proof.
  apply (convert_through_a_third_unit 2.5 "eth" "gwei" "wei" "ethereum" 1e18 1e9 1).
  - do 2 right. left. reflexivity.
  - right. left. reflexivity.
  - left. reflexivity.
  - vm_compute. reflexivity.
Defined.

(** ** The tools of [agent.py] *)

Lemma agent_get_blockchain_info_returns chain_name :
  returns (Agent.get_blockchain_info chain_name) [Success; NotFound].
Proof.
  unfold Agent.get_blockchain_info. cbv zeta.
  destruct (contains Agent.blockchain_data (strip (lower chain_name))) eqn:E.
  - destruct (contains_getitem _ _ E) as [v [Hv _]]. rewrite Hv.
    apply outcome_in with Success; [reflexivity | simpl; auto].
  - apply outcome_in with NotFound; [reflexivity | simpl; auto].
Qed.

Lemma agent_validate_wallet_address_returns address chain_arg :
  returns (Agent.validate_wallet_address address chain_arg) [Success; Error].
Proof.
  unfold Agent.validate_wallet_address. cbv zeta.
  destruct (contains Agent.validations
              (lower (with_default chain_arg "ethereum"))) eqn:E.
  - key_cases E; rewrite <- E; cbn -[Re.match_];
      rewrite ?match_ethereum, ?match_bitcoin, ?match_solana;
      (apply outcome_in with Success; [reflexivity | simpl; auto]).
  - apply outcome_in with Error; [reflexivity | simpl; auto].
Qed.

Lemma returns_same_outcome (r r' : result pyval) (ts : list variant) :
  outcome r = outcome r' -> returns r ts -> returns r' ts.
Proof. intros E (t & Ht & Hin). exists t. split; [congruence | exact Hin]. Qed.

(** X20. None of the five tools of [agent.py] raises: for every input each
    returns an envelope, Success or NotFound for the three lookups, Success
    or Error for the validator and the converter. *)
Theorem agent_tools_return_envelopes :
  (forall chain_name,
      returns (Agent.get_blockchain_info chain_name) [Success; NotFound])
  /\ (forall address chain_arg,
      returns (Agent.validate_wallet_address address chain_arg) [Success; Error])
  /\ (forall chain_arg,
      returns (Agent.explain_gas_fees chain_arg) [Success; NotFound])
  /\ (forall contract_type,
      returns (Agent.get_smart_contract_template contract_type)
        [Success; NotFound])
  /\ (forall amount from_unit to_unit,
      returns (Agent.convert_crypto_units amount from_unit to_unit)
        [Success; Error]).
Proof.
  repeat split.
  - exact agent_get_blockchain_info_returns.
  - exact agent_validate_wallet_address_returns.
  - intros chain_arg.
    exact (returns_same_outcome _ _ _ (agree_gas chain_arg)
             (explain_gas_fees_returns chain_arg)).
  - intros contract_type.
    exact (returns_same_outcome _ _ _ (agree_template contract_type)
             (get_smart_contract_template_returns contract_type)).
  - intros amount from_unit to_unit.
    exact (returns_same_outcome _ _ _
             (proj1 (agree_convert amount from_unit to_unit))
             (convert_crypto_units_returns amount from_unit to_unit)).
Qed.

(** X21. On a miss the [get_blockchain_info] of [agent.py] lists chains, and
    each chain it lists is found when asked for. *)
Theorem agent_suggested_chains_are_found chain_name chain :
  In chain (listed "available_chains" (Agent.get_blockchain_info chain_name)) ->
  outcome (Agent.get_blockchain_info chain) = Some Success.
Proof.
  unfold Agent.get_blockchain_info. cbv zeta.
  destruct (contains Agent.blockchain_data (strip (lower chain_name))) eqn:E.
  - destruct (contains_getitem _ _ E) as [v [Hv _]]. rewrite Hv.
    intros H. contradiction H.
  - intros H. each_listed H; vm_compute; reflexivity.
Qed.

Lemma agent_suggested_chains_are_found_witness :
  outcome (Agent.get_blockchain_info "binance") = Some Success.
Proof.
  apply (agent_suggested_chains_are_found "dogecoin" "binance").
  vm_compute. tauto.
Defined.

(** X22. The [convert_crypto_units] of [agent.py], case by case. Units of one
    family give Success with [amount * factor(from) / factor(to)] and the
    family; units of two families give the Error envelope whose message
    names both; a unit that is not in the table gives the Error envelope
    that lists the units. The family is never [None] for a unit of the
    table. *)
Theorem agent_convert_crypto_units_cases amount from_unit to_unit :
  (forall family k_from k_to,
      has_entry unit_definitions (lower from_unit) (family, k_from) ->
      has_entry unit_definitions (lower to_unit) (family, k_to) ->
      Agent.convert_crypto_units amount from_unit to_unit
      = ret (PDict
          [ ("status", PStr "success");
            ("input", PDict [ ("amount", PFloat amount);
                              ("unit", PStr from_unit) ]);
            ("output", PDict [ ("amount", PFloat (amount * k_from / k_to));
                               ("unit", PStr to_unit) ]);
            ("blockchain", PStr family) ]))
  /\ (forall family_from k_from family_to k_to,
      has_entry unit_definitions (lower from_unit) (family_from, k_from) ->
      has_entry unit_definitions (lower to_unit) (family_to, k_to) ->
      family_from <> family_to ->
      Agent.convert_crypto_units amount from_unit to_unit
      = ret (PDict
          [ ("status", PStr "error");
            ("message",
             PStr ("Cannot convert between different blockchains ("
                   ++ family_from ++ " to " ++ family_to ++ ")")) ]))
  /\ (~ In (lower from_unit) known_units \/ ~ In (lower to_unit) known_units ->
      Agent.convert_crypto_units amount from_unit to_unit
      = ret (PDict
          [ ("status", PStr "error");
            ("message", PStr "Invalid unit specified");
            ("available_units", PList (map PStr known_units)) ])).
Proof.
  split; [|split].
  - intros family k_from k_to Hfrom Hto.
    unit_entry Hfrom; unit_entry Hto; subst; try discriminate;
      match goal with
      | Hf : _ = lower from_unit, Ht : _ = lower to_unit |- _ =>
          unfold Agent.convert_crypto_units; cbv zeta;
          rewrite <- Hf, <- Ht; vm_compute; reflexivity
      end.
  - intros family_from k_from family_to k_to Hfrom Hto Hne.
    unit_entry Hfrom; unit_entry Hto; subst; try congruence;
      match goal with
      | Hf : _ = lower from_unit, Ht : _ = lower to_unit |- _ =>
          unfold Agent.convert_crypto_units; cbv zeta;
          rewrite <- Hf, <- Ht; vm_compute; reflexivity
      end.
  - intros H. unfold Agent.convert_crypto_units. cbv zeta.
    assert (Hc : negb (contains Agent.conversions (lower from_unit))
                 || negb (contains Agent.conversions (lower to_unit)) = true).
    { destruct H as [H|H]; apply (contains_false Agent.conversions) in H;
        rewrite H; simpl; btauto. }
    rewrite Hc. reflexivity.
Qed.
